(** * GoTXT2GEO: the QGIS export script [internal/pyscript/geoexport.py]

    A shallow embedding of the export pipeline: the static schema, the CRS
    and transform caches of [GeoProcessor], feature construction, the
    derivation of the write options, the per-dataset loop of [run_export]
    and the process entry point [main].

    The script is glue around PyQGIS.  Everything it calls in QGIS, pathlib
    and json is a field of the class [Qgis] below, so that every theorem
    holds for every behaviour of those libraries that fits the interface. *)

From Stdlib Require Import ZArith Lia.
From stdpp Require Import base option list strings gmap fin_maps.

Local Open Scope string_scope.
Local Open Scope list_scope.
Set Warnings "-register-all".

(** ** Python values and exceptions *)

(** What [json.loads] returns: None, bool, int, float, str, list, dict.
    A float keeps its literal, the script never computes with one.  A dict
    is kept as its items in insertion order, keys distinct. *)
Inductive json : Type :=
| JNull
| JBool (b : bool)
| JInt (z : Z)
| JFloat (lit : string)
| JStr (s : string)
| JArr (items : list json)
| JObj (items : list (string * json)).

Definition dict (V : Type) : Type := list (string * V).

(** [d.get(k)] with None for a missing key. *)
Fixpoint dict_get {V : Type} (k : string) (d : dict V) : option V :=
  match d with
  | [] => None
  | (k', v) :: d' => if String.eqb k' k then Some v else dict_get k d'
  end.

(** [k in d] *)
Definition dict_mem {V : Type} (k : string) (d : dict V) : bool :=
  match dict_get k d with Some _ => true | None => false end.

Definition dict_keys {V : Type} (d : dict V) : list string := d.*1.

Inductive ExnClass : Type :=
| RuntimeError
| AttributeError
| TypeError
| IndexError
| JSONDecodeError
| QgsCsException
| OtherException (cls : string).

(** An instance of a subclass of [Exception]; [exn_msg] is [str(e)]. *)
Record PyExn : Type := mkExn { exn_class : ExnClass; exn_msg : string }.

Inductive outcome (A : Type) : Type :=
| Ret (a : A)
| Raise (e : PyExn).
Arguments Ret {A} a.
Arguments Raise {A} e.

(** ** The schema: [FieldDef], [FIELD_DEFINITIONS], [FIELD_MAPPING] *)

Module QMetaType.
Inductive Type_ : Type := Int | Double | QString.
End QMetaType.

Record QgsField : Type := mkQgsField {
  field_name : string;
  field_type : QMetaType.Type_;
  field_typeName : string;
  field_len : Z;
  field_prec : Z;
  field_comment : string;
  field_alias : string
}.

Module FieldDef.
Record t : Type := mk {
  name : string;
  type : QMetaType.Type_;
  alias : string;
  comment : string;
  length : Z;
  precision : Z
}.

Definition to_qgs_field (self : t) : QgsField :=
  let field := mkQgsField (name self) (type self) "" (length self)
                          (precision self) (comment self) "" in
  if String.eqb (alias self) "" then field
  else mkQgsField (field_name field) (field_type field) (field_typeName field)
                  (field_len field) (field_prec field) (field_comment field)
                  (alias self).
End FieldDef.

Definition FIELD_DEFINITIONS : list FieldDef.t :=
  [ FieldDef.mk "JZD" QMetaType.Int "界址点数" "几何节点数量" 0 0;
    FieldDef.mk "AREA" QMetaType.Double "地块面积" "平方米" 32 6;
    FieldDef.mk "DKBH" QMetaType.QString "地块编号" "地块编号" 32 0;
    FieldDef.mk "DKMC" QMetaType.QString "地块名称" "地块名称" 64 0;
    FieldDef.mk "TXSX" QMetaType.QString "图形属性" "点线面类型" 16 0;
    FieldDef.mk "TFH" QMetaType.QString "图幅号" "图幅号" 32 0;
    FieldDef.mk "DKYT" QMetaType.QString "地块用途" "用途" 64 0;
    FieldDef.mk "DLBM" QMetaType.QString "地类编码" "分类编码" 32 0;
    FieldDef.mk "WJLJ" QMetaType.QString "文件路径" "原始文件路径" 254 0 ].

Definition FIELD_MAPPING : dict (list string) :=
  [ ("JZD", ["bp_cnt"]);
    ("AREA", ["area"]);
    ("DKBH", ["pid"]);
    ("DKMC", ["pname"]);
    ("TXSX", ["gtype"]);
    ("TFH", ["sheet"]);
    ("DKYT", ["usage"]);
    ("DLBM", ["code"]);
    ("WJLJ", ["source_path"]) ].

(** ** The payload dataclasses *)

Module Feature.
Record t : Type := mk {
  properties : dict json;
  wkt : string
}.
End Feature.

Module Dataset.
Record t : Type := mk {
  features : list Feature.t;
  hash : string;
  layer_name : string;
  source_crs : string;
  source_path : string;
  total_features : Z
}.
End Dataset.

Module ExportPayload.
Record t : Type := mk {
  datasets : list Dataset.t;
  driver : string;
  merge : bool;
  output_dir : string;
  overwrite : bool;
  target_crs : string
}.

Definition with_merge (b : bool) (p : t) : t :=
  mk (datasets p) (driver p) b (output_dir p) (overwrite p) (target_crs p).
End ExportPayload.

(** ** [ExportPayload.from_dict]

    [from_dict] checks the shape of the document (which keys each dict has)
    and nothing else: the dataclasses keep whatever value a key carries. *)

Module Raw.
Record Feature : Type := mkFeature {
  properties : json;
  wkt : json
}.

Record Dataset : Type := mkDataset {
  features : list Feature;
  hash : json;
  layer_name : json;
  source_crs : json;
  source_path : json;
  total_features : json
}.

Record ExportPayload : Type := mkExportPayload {
  datasets : list Dataset;
  driver : json;
  merge : json;
  output_dir : json;
  overwrite : json;
  target_crs : json
}.
End Raw.

Definition type_name (v : json) : string :=
  match v with
  | JNull => "NoneType"
  | JBool _ => "bool"
  | JInt _ => "int"
  | JFloat _ => "float"
  | JStr _ => "str"
  | JArr _ => "list"
  | JObj _ => "dict"
  end.

Fixpoint chars (s : string) : list json :=
  match s with
  | EmptyString => []
  | String c s' => JStr (String c EmptyString) :: chars s'
  end.

(** [for x in v]: the items of a list, the keys of a dict, the characters of
    a str; anything else is not iterable. *)
Definition py_iter (v : json) : outcome (list json) :=
  match v with
  | JArr items => Ret items
  | JObj items => Ret (JStr <$> dict_keys items)
  | JStr s => Ret (chars s)
  | _ => Raise (mkExn TypeError ("'" +:+ type_name v +:+ "' object is not iterable"))
  end.

(** [v.get(k, dflt)]: only a dict has [get]. *)
Definition py_get (v : json) (k : string) (dflt : json) : outcome json :=
  match v with
  | JObj items => Ret (default dflt (dict_get k items))
  | _ => Raise (mkExn AttributeError
                  ("'" +:+ type_name v +:+ "' object has no attribute 'get'"))
  end.

(** Binding keyword arguments [kwargs] to the parameters [params] of a
    dataclass constructor, none of which has a default: an argument for no
    parameter and a parameter without an argument are both TypeErrors. *)
Definition bind_kwargs (cls : string) (params : list string) (kwargs : dict json)
    : outcome unit :=
  match filter (fun k => k ∉ params) (dict_keys kwargs) with
  | k :: _ =>
      Raise (mkExn TypeError
               (cls +:+ ".__init__() got an unexpected keyword argument '" +:+ k +:+ "'"))
  | [] =>
      match filter (fun k => dict_get k kwargs = None) params with
      | k :: _ =>
          Raise (mkExn TypeError
                   (cls +:+ ".__init__() missing required argument '" +:+ k +:+ "'"))
      | [] => Ret tt
      end
  end.

Definition kw (k : string) (kwargs : dict json) : json :=
  default JNull (dict_get k kwargs).

(** [Feature] called with the items of [f] as keyword arguments *)
Definition make_feature (f : json) : outcome Raw.Feature :=
  match f with
  | JObj kwargs =>
      match bind_kwargs "Feature" ["properties"; "wkt"] kwargs with
      | Raise e => Raise e
      | Ret _ => Ret (Raw.mkFeature (kw "properties" kwargs) (kw "wkt" kwargs))
      end
  | _ => Raise (mkExn TypeError "argument after ** must be a mapping")
  end.

(** A list comprehension [[f x for x in xs]], stopping at the first raise. *)
Fixpoint comprehension {A B} (f : A -> outcome B) (xs : list A) : outcome (list B) :=
  match xs with
  | [] => Ret []
  | x :: xs' =>
      match f x with
      | Raise e => Raise e
      | Ret y =>
          match comprehension f xs' with
          | Raise e => Raise e
          | Ret ys => Ret (y :: ys)
          end
      end
  end.

(** [Dataset] called with [features] and, as keyword arguments, every other
    item of [ds] *)
Definition make_dataset (ds : json) : outcome Raw.Dataset :=
  match py_get ds "features" (JArr []) with
  | Raise e => Raise e
  | Ret fs =>
      match py_iter fs with
      | Raise e => Raise e
      | Ret fs =>
          match comprehension make_feature fs with
          | Raise e => Raise e
          | Ret features =>
              let kwargs :=
                match ds with
                | JObj items => filter (fun kv => kv.1 ≠ "features") items
                | _ => []
                end in
              match bind_kwargs "Dataset"
                      ["hash"; "layer_name"; "source_crs"; "source_path";
                       "total_features"] kwargs with
              | Raise e => Raise e
              | Ret _ =>
                  Ret (Raw.mkDataset features (kw "hash" kwargs)
                         (kw "layer_name" kwargs) (kw "source_crs" kwargs)
                         (kw "source_path" kwargs) (kw "total_features" kwargs))
              end
          end
      end
  end.

Definition from_dict (data : json) : outcome Raw.ExportPayload :=
  match py_get data "datasets" (JArr []) with
  | Raise e => Raise e
  | Ret dss =>
      match py_iter dss with
      | Raise e => Raise e
      | Ret dss =>
          match comprehension make_dataset dss with
          | Raise e => Raise e
          | Ret datasets =>
              let kwargs :=
                match data with
                | JObj items => filter (fun kv => kv.1 ≠ "datasets") items
                | _ => []
                end in
              match bind_kwargs "ExportPayload"
                      ["driver"; "merge"; "output_dir"; "overwrite"; "target_crs"]
                      kwargs with
              | Raise e => Raise e
              | Ret _ =>
                  Ret (Raw.mkExportPayload datasets (kw "driver" kwargs)
                         (kw "merge" kwargs) (kw "output_dir" kwargs)
                         (kw "overwrite" kwargs) (kw "target_crs" kwargs))
              end
          end
      end
  end.

(** The payload read at the types its dataclasses declare; [None] when some
    value has another type, a document this development does not follow
    into the processor. *)
Definition as_str (v : json) : option string :=
  match v with JStr s => Some s | _ => None end.

Definition as_bool (v : json) : option bool :=
  match v with JBool b => Some b | _ => None end.

Definition as_int (v : json) : option Z :=
  match v with JInt z => Some z | _ => None end.

Definition as_dict (v : json) : option (dict json) :=
  match v with JObj items => Some items | _ => None end.

Definition typed_feature (f : Raw.Feature) : option Feature.t :=
  properties ← as_dict (Raw.properties f);
  wkt ← as_str (Raw.wkt f);
  Some (Feature.mk properties wkt).

Definition typed_dataset (d : Raw.Dataset) : option Dataset.t :=
  features ← mapM typed_feature (Raw.features d);
  hash ← as_str (Raw.hash d);
  layer_name ← as_str (Raw.layer_name d);
  source_crs ← as_str (Raw.source_crs d);
  source_path ← as_str (Raw.source_path d);
  total_features ← as_int (Raw.total_features d);
  Some (Dataset.mk features hash layer_name source_crs source_path total_features).

Definition typed_payload (p : Raw.ExportPayload) : option ExportPayload.t :=
  datasets ← mapM typed_dataset (Raw.datasets p);
  driver ← as_str (Raw.driver p);
  merge ← as_bool (Raw.merge p);
  output_dir ← as_str (Raw.output_dir p);
  overwrite ← as_bool (Raw.overwrite p);
  target_crs ← as_str (Raw.target_crs p);
  Some (ExportPayload.mk datasets driver merge output_dir overwrite target_crs).

(** The document of a payload: what the caller writes on the input channel,
    as [json.loads] returns it. *)
Definition feature_json (f : Feature.t) : json :=
  JObj [("properties", JObj (Feature.properties f)); ("wkt", JStr (Feature.wkt f))].

Definition dataset_json (d : Dataset.t) : json :=
  JObj [("features", JArr (feature_json <$> Dataset.features d));
        ("hash", JStr (Dataset.hash d));
        ("layer_name", JStr (Dataset.layer_name d));
        ("source_crs", JStr (Dataset.source_crs d));
        ("source_path", JStr (Dataset.source_path d));
        ("total_features", JInt (Dataset.total_features d))].

Definition payload_json (p : ExportPayload.t) : json :=
  JObj [("datasets", JArr (dataset_json <$> ExportPayload.datasets p));
        ("driver", JStr (ExportPayload.driver p));
        ("merge", JBool (ExportPayload.merge p));
        ("output_dir", JStr (ExportPayload.output_dir p));
        ("overwrite", JBool (ExportPayload.overwrite p));
        ("target_crs", JStr (ExportPayload.target_crs p))].

(** What [from_dict] makes of the document of a feature, of a dataset. *)
Definition raw_feature (f : Feature.t) : Raw.Feature :=
  Raw.mkFeature (JObj (Feature.properties f)) (JStr (Feature.wkt f)).

Definition raw_dataset (d : Dataset.t) : Raw.Dataset :=
  Raw.mkDataset (raw_feature <$> Dataset.features d) (JStr (Dataset.hash d))
    (JStr (Dataset.layer_name d)) (JStr (Dataset.source_crs d))
    (JStr (Dataset.source_path d)) (JInt (Dataset.total_features d)).

(** ** What the script sees of QGIS *)

Module QgsWkbTypes.
Inductive Type_ : Type :=
| Unknown | Point | LineString | Polygon
| MultiPoint | MultiLineString | MultiPolygon | NoGeometry.
End QgsWkbTypes.

Inductive ActionOnExistingFile : Type :=
| CreateOrOverwriteFile
| CreateOrOverwriteLayer
| AppendToLayerNoNewFields
| AppendToLayerAddFields.

Inductive WriterError : Type :=
| NoError
| ErrCode (code : positive).

Definition WriterError_eqb (a b : WriterError) : bool :=
  match a, b with
  | NoError, NoError => true
  | ErrCode x, ErrCode y => Pos.eqb x y
  | _, _ => false
  end.

Record SaveVectorOptions : Type := mkSaveVectorOptions {
  driverName : string;
  layerName : string;
  fileEncoding : string;
  actionOnExistingFile : ActionOnExistingFile;
  layerOptions : list string
}.

(** A [QgsFeature] over geometries of type [G]. *)
Record QgsFeature (G : Type) : Type := mkQgsFeature {
  feature_fields : list QgsField;
  attributes : list json;
  geometry : option G
}.
Arguments mkQgsFeature {G}.
Arguments feature_fields {G}.
Arguments attributes {G}.
Arguments geometry {G}.

(** A Python object: its identity and its value. *)
Record Obj (A : Type) : Type := mkObj { oid : nat; val : A }.
Arguments mkObj {A}.
Arguments oid {A}.
Arguments val {A}.

(** The library calls of the script.  A call whose failure the script reads
    from a status value ([isValid], [hasError], [isEmpty], the result of
    [addFeatures], [exists]) returns that value; the two calls into the
    projection engine, building a transform and applying one, the WKT
    parser, which the script runs under [try], [json.loads] and the start of
    QGIS may raise.  [World] is the state of the file system and of the open
    data sources. *)
Class Qgis : Type := {
  Crs : Type;
  Transform : Type;
  Geometry : Type;
  Writer : Type;
  Path : Type;
  World : Type;
  (* QgsCoordinateReferenceSystem(definition), and its methods *)
  QgsCoordinateReferenceSystem : string -> Crs;
  isValid : Crs -> bool;
  authid : Crs -> string;
  toWkt : Crs -> string;
  crs_eq : Crs -> Crs -> bool;
  (* QgsCoordinateTransform(src, dest, QgsProject.instance().transformContext()) *)
  QgsCoordinateTransform : Crs -> Crs -> outcome Transform;
  (* QgsGeometry.fromWkt, isEmpty, transform (in place: the new value) *)
  fromWkt : string -> outcome Geometry;
  isEmpty : Geometry -> bool;
  geometry_transform : Geometry -> Transform -> outcome Geometry;
  (* QgsVectorFileWriter.create and the writer's methods *)
  create : World -> string -> list QgsField -> QgsWkbTypes.Type_ -> Crs ->
           SaveVectorOptions -> Writer * World;
  hasError : Writer -> WriterError;
  errorMessage : Writer -> string;
  addFeatures : World -> Writer -> list (QgsFeature Geometry) -> bool * World;
  release : World -> Writer -> World;
  (* pathlib.Path(s), p / s, p.as_posix(), p.exists() *)
  mkPath : string -> Path;
  joinpath : Path -> string -> Path;
  as_posix : Path -> string;
  path_exists : World -> Path -> bool;
  (* str.upper, json.loads *)
  upper : string -> string;
  json_loads : string -> outcome json;
  (* QgsApplication([], False), setPrefixPath(prefix_path, True), initQgis() *)
  initQgis : string -> outcome unit
}.

(** ** Logging *)

Inductive Level : Type := INFO | WARNING | ERROR.

(** The arguments a log call formats into its message. [AElapsed] is the
    wall-clock duration, which the model does not compute. *)
Inductive LogArg : Type :=
| AStr (s : string)
| AInt (z : Z)
| AExn (e : PyExn)
| AProps (d : dict json)
| AElapsed.

Record LogRecord : Type := mkLog {
  levelname : Level;
  msg : string;
  args : list LogArg
}.

(** ** The processor and the process around it *)

Section GeoProcessor.
Context `{Q : Qgis}.

(** Library calls with an effect, in the order the script made them. *)
Inductive Event : Type :=
| NewCrs (c : Obj Crs) (definition : string)
| NewTransform (t : Obj Transform) (src dest : Obj Crs)
| WriterCreate (path : string) (flds : list QgsField)
    (geometryType : QgsWkbTypes.Type_) (crs : Obj Crs) (opts : SaveVectorOptions)
| AddFeatures (path : string) (feats : list (QgsFeature Geometry))
| WriterRelease (path : string).

(** The part of the process that outlives the processor: the object
    allocator, stderr (the log), stdout (one dict per printed line), the
    library calls made so far and the outside world. *)
Record Process : Type := mkProcess {
  next_oid : nat;
  log : list LogRecord;
  stdout : list (dict string);
  trace : list Event;
  world : World
}.

(** The attributes of a [GeoProcessor]; an attribute that [__init__] has not
    assigned yet is [None]. *)
Record State : Type := mkState {
  payload : ExportPayload.t;
  fields : list QgsField;
  crs_cache : gmap string (Obj Crs);
  transform_cache : gmap (string * string) (Obj Transform);
  default_crs : option (Obj Crs);
  current_dataset : option Dataset.t;
  proc : Process
}.

Definition set_crs_cache (c : gmap string (Obj Crs)) (st : State) : State :=
  mkState (payload st) (fields st) c (transform_cache st) (default_crs st)
          (current_dataset st) (proc st).

Definition set_transform_cache (c : gmap (string * string) (Obj Transform))
    (st : State) : State :=
  mkState (payload st) (fields st) (crs_cache st) c (default_crs st)
          (current_dataset st) (proc st).

Definition set_default_crs (c : option (Obj Crs)) (st : State) : State :=
  mkState (payload st) (fields st) (crs_cache st) (transform_cache st) c
          (current_dataset st) (proc st).

Definition set_current_dataset (d : option Dataset.t) (st : State) : State :=
  mkState (payload st) (fields st) (crs_cache st) (transform_cache st)
          (default_crs st) d (proc st).

Definition set_proc (p : Process) (st : State) : State :=
  mkState (payload st) (fields st) (crs_cache st) (transform_cache st)
          (default_crs st) (current_dataset st) p.

Definition emit_log (r : LogRecord) (p : Process) : Process :=
  mkProcess (next_oid p) (log p ++ [r]) (stdout p) (trace p) (world p).

Definition emit_stdout (r : dict string) (p : Process) : Process :=
  mkProcess (next_oid p) (log p) (stdout p ++ [r]) (trace p) (world p).

Definition emit_event (e : Event) (p : Process) : Process :=
  mkProcess (next_oid p) (log p) (stdout p) (trace p ++ [e]) (world p).

Definition set_world (w : World) (p : Process) : Process :=
  mkProcess (next_oid p) (log p) (stdout p) (trace p) w.

Definition bump_oid (p : Process) : Process :=
  mkProcess (S (next_oid p)) (log p) (stdout p) (trace p) (world p).

(** ** Methods: state passing with exceptions

    A method takes the processor and returns or raises; what it did to the
    processor and to the process before raising stays done. *)
Definition M (A : Type) : Type := State -> outcome A * State.

Definition ret {A} (a : A) : M A := fun st => (Ret a, st).

Definition raise {A} (e : PyExn) : M A := fun st => (Raise e, st).

Definition bind {A B} (c : M A) (k : A -> M B) : M B :=
  fun st =>
    match c st with
    | (Ret a, st') => k a st'
    | (Raise e, st') => (Raise e, st')
    end.

Definition gets {A} (f : State -> A) : M A := fun st => (Ret (f st), st).

Definition modify (f : State -> State) : M unit := fun st => (Ret tt, f st).

Definition lift {A} (o : outcome A) : M A := fun st => (o, st).

(** [try: body / except Exception as e: handler e] *)
Definition try_except {A} (body : M A) (handler : PyExn -> M A) : M A :=
  fun st =>
    match body st with
    | (Ret a, st') => (Ret a, st')
    | (Raise e, st') => handler e st'
    end.

(** [try: body / finally: final], for a [final] that does not raise *)
Definition try_finally {A} (body : M A) (final : State -> State) : M A :=
  fun st => let '(r, st') := body st in (r, final st').

Notation "x <- c ;; k" := (bind c (fun x => k))
  (at level 100, c at next level, right associativity).
Notation "c ;; k" := (bind c (fun _ => k))
  (at level 100, right associativity).

Definition logging (lvl : Level) (m : string) (a : list LogArg) : M unit :=
  modify (fun st => set_proc (emit_log (mkLog lvl m a) (proc st)) st).

(** [print(json.dumps(record, ensure_ascii=False))] *)
Definition print (record : dict string) : M unit :=
  modify (fun st => set_proc (emit_stdout record (proc st)) st).

Definition record_event (e : Event) : M unit :=
  modify (fun st => set_proc (emit_event e (proc st)) st).

(** A fresh Python object holding [v]. *)
Definition new_object {A} (v : A) : M (Obj A) :=
  o <- gets (fun st => mkObj (next_oid (proc st)) v) ;;
  modify (fun st => set_proc (bump_oid (proc st)) st) ;;
  ret o.

(** [self.default_crs]: AttributeError while [__init__] has not assigned it. *)
Definition get_default_crs : M (Obj Crs) :=
  d <- gets default_crs ;;
  match d with
  | Some c => ret c
  | None => raise (mkExn AttributeError
              "'GeoProcessor' object has no attribute 'default_crs'")
  end.

(** *** [_build_fields] *)
Definition _build_fields : list QgsField :=
  fold_left (fun flds f_def => flds ++ [FieldDef.to_qgs_field f_def])
            FIELD_DEFINITIONS [].

(** *** [_extract_attributes] *)

(** The inner [for source_key in possible_source_keys] with its [break]. *)
Fixpoint scan_source_keys (possible_source_keys : list string) (props : dict json)
    (found_value : json) : json :=
  match possible_source_keys with
  | [] => found_value
  | source_key :: rest =>
      if dict_mem source_key props
      then default JNull (dict_get source_key props)
      else scan_source_keys rest props found_value
  end.

Definition _extract_attributes (props : dict json) : M (list json) :=
  cur <- gets current_dataset ;;
  match cur with
  | None => raise (mkExn RuntimeError
              "在调用 _extract_attributes 之前必须设置 current_dataset")
  | Some ds =>
      let source_path := Dataset.source_path ds in
      ret (fold_left
             (fun attributes field_def =>
                let target_field_name := FieldDef.name field_def in
                let found_value :=
                  if String.eqb target_field_name "WJLJ"
                  then JStr source_path
                  else scan_source_keys
                         (default [] (dict_get target_field_name FIELD_MAPPING))
                         props JNull in
                attributes ++ [found_value])
             FIELD_DEFINITIONS [])
  end.

(** *** [_build_crs] *)
Definition _build_crs (def_crs : string) : M (Obj Crs) :=
  if String.eqb def_crs "" then
    logging WARNING "收到了空的 CRS 定义，将使用默认 CRS。" [] ;;
    get_default_crs
  else
    cache <- gets crs_cache ;;
    match cache !! def_crs with
    | Some c => ret c
    | None =>
        qgs_crs <- new_object (QgsCoordinateReferenceSystem def_crs) ;;
        record_event (NewCrs qgs_crs def_crs) ;;
        if negb (isValid (val qgs_crs)) then
          logging ERROR "无效的 CRS 定义: %s，将使用默认 CRS。" [AStr def_crs] ;;
          get_default_crs
        else
          modify (fun st => set_crs_cache (<[def_crs := qgs_crs]> (crs_cache st)) st) ;;
          ret qgs_crs
    end.

(** *** [_build_transform] *)

(** [crs.authid() or crs.toWkt()] *)
Definition crs_key (c : Obj Crs) : string :=
  if String.eqb (authid (val c)) "" then toWkt (val c) else authid (val c).

Definition _build_transform (src_crs dest_crs : Obj Crs) : M (option (Obj Transform)) :=
  let key := (crs_key src_crs, crs_key dest_crs) in
  cache <- gets transform_cache ;;
  match cache !! key with
  | Some t => ret (Some t)
  | None =>
      if crs_eq (val src_crs) (val dest_crs) then ret None
      else
        v <- lift (QgsCoordinateTransform (val src_crs) (val dest_crs)) ;;
        transform <- new_object v ;;
        record_event (NewTransform transform src_crs dest_crs) ;;
        modify (fun st =>
                  set_transform_cache (<[key := transform]> (transform_cache st)) st) ;;
        ret (Some transform)
  end.

(** *** [_create_feature] *)

(** The body of the [try]. *)
Definition create_feature_body (feature_data : Feature.t)
    (transform : option (Obj Transform)) : M (option (QgsFeature Geometry)) :=
  flds <- gets fields ;;
  let feature := mkQgsFeature flds [] None in
  attributes <- _extract_attributes (Feature.properties feature_data) ;;
  let feature := mkQgsFeature (feature_fields feature) attributes
                              (geometry feature) in
  feature <-
    (if String.eqb (Feature.wkt feature_data) "" then ret feature
     else
       geom <- lift (fromWkt (Feature.wkt feature_data)) ;;
       if negb (isEmpty geom) then
         geom <- match transform with
                 | Some t => lift (geometry_transform geom (val t))
                 | None => ret geom
                 end ;;
         ret (mkQgsFeature (feature_fields feature) attributes (Some geom))
       else ret feature) ;;
  ret (Some feature).

Definition create_feature_error (feature_data : Feature.t) (e : PyExn) : LogRecord :=
  mkLog ERROR "创建要素失败: %s. 记录: %s"
        [AExn e; AProps (Feature.properties feature_data)].

Definition _create_feature (feature_data : Feature.t)
    (transform : option (Obj Transform)) : M (option (QgsFeature Geometry)) :=
  try_except
    (create_feature_body feature_data transform)
    (fun e =>
       modify (fun st =>
                 set_proc (emit_log (create_feature_error feature_data e) (proc st)) st) ;;
       ret None).

(** *** [_prepare_save_options] *)

(** [self.current_dataset.layer_name] and the like: AttributeError on None. *)
Definition get_current_dataset (attr : string) : M Dataset.t :=
  cur <- gets current_dataset ;;
  match cur with
  | Some ds => ret ds
  | None => raise (mkExn AttributeError
              ("'NoneType' object has no attribute '" +:+ attr +:+ "'"))
  end.

Definition is_container_driver (driver_name : string) : bool :=
  bool_decide (upper driver_name ∈ ({["GPKG"; "OPENFILEGDB"]} : gset string)).

Definition _prepare_save_options : M (SaveVectorOptions * string * string) :=
  p <- gets payload ;;
  let driver_name := ExportPayload.driver p in
  ds <- get_current_dataset "layer_name" ;;
  let layer_name := Dataset.layer_name ds in
  let output_dir := mkPath (ExportPayload.output_dir p) in
  let overwrite := ExportPayload.overwrite p in
  let is_container := is_container_driver driver_name in
  let '(target_path, display_path) :=
    if is_container
    then (output_dir, as_posix output_dir +:+ "|layername=" +:+ layer_name)
    else (joinpath output_dir layer_name,
          as_posix (joinpath output_dir layer_name)) in
  w <- gets (fun st => world (proc st)) ;;
  let action :=
    if path_exists w target_path && overwrite
    then (if is_container then CreateOrOverwriteLayer else CreateOrOverwriteFile)
    else CreateOrOverwriteFile in
  let save_opts :=
    mkSaveVectorOptions driver_name layer_name "UTF-8" action
      (if negb (String.eqb (upper driver_name) "OPENFILEGDB")
       then ["SPATIAL_INDEX=YES"] else []) in
  ret (save_opts, as_posix target_path, display_path).

(** *** [_write_features] *)

Definition writer_create (path : string) (flds : list QgsField)
    (geometryType : QgsWkbTypes.Type_) (crs : Obj Crs) (opts : SaveVectorOptions)
    : M Writer :=
  created <- gets (fun st =>
               create (world (proc st)) path flds geometryType (val crs) opts) ;;
  modify (fun st =>
            set_proc (emit_event (WriterCreate path flds geometryType crs opts)
                        (set_world created.2 (proc st))) st) ;;
  ret created.1.

Definition writer_addFeatures (path : string) (writer : Writer)
    (feats : list (QgsFeature Geometry)) : M bool :=
  added <- gets (fun st => addFeatures (world (proc st)) writer feats) ;;
  modify (fun st =>
            set_proc (emit_event (AddFeatures path feats)
                        (set_world added.2 (proc st))) st) ;;
  ret added.1.

(** [del writer]; also the writer going out of scope when [_write_features]
    returns without a [del], after a creation error. *)
Definition writer_del (path : string) (writer : Writer) : M unit :=
  modify (fun st =>
            set_proc (emit_event (WriterRelease path)
                        (set_world (release (world (proc st)) writer) (proc st))) st).

Definition _write_features (features : list (QgsFeature Geometry))
    (dest_crs : Obj Crs) : M bool :=
  prepared <- _prepare_save_options ;;
  let '(save_opts, target_path_str, display_path) := prepared in
  flds <- gets fields ;;
  writer <- writer_create target_path_str flds QgsWkbTypes.Polygon dest_crs save_opts ;;
  if negb (WriterError_eqb (hasError writer) NoError) then
    logging ERROR "创建矢量文件写入器失败: %s" [AStr (errorMessage writer)] ;;
    writer_del target_path_str writer ;;
    ret false
  else
    added <- match features with
             | [] => ret true
             | _ :: _ => writer_addFeatures target_path_str writer features
             end ;;
    if negb added then
      ds <- get_current_dataset "layer_name" ;;
      logging ERROR "向图层 '%s' 添加要素失败" [AStr (Dataset.layer_name ds)] ;;
      writer_del target_path_str writer ;;
      ret false
    else
      writer_del target_path_str writer ;;
      logging INFO "成功写入 %d 条要素 -> '%s'"
              [AInt (Z.of_nat (length features)); AStr display_path] ;;
      ret true.

(** *** [run_export] *)

(** The list comprehension that keeps the features [_create_feature] built. *)
Fixpoint build_features (feats : list Feature.t) (transform : option (Obj Transform))
    : M (list (QgsFeature Geometry)) :=
  match feats with
  | [] => ret []
  | feature_data :: rest =>
      qgs_feature <- _create_feature feature_data transform ;;
      qgs_features <- build_features rest transform ;;
      ret (match qgs_feature with
           | Some f => f :: qgs_features
           | None => qgs_features
           end)
  end.

(** The body of the [try] of one iteration. *)
Definition export_dataset (dataset : Dataset.t) (dest_crs : Obj Crs) : M unit :=
  logging INFO "正在处理文件: %s" [AStr (Dataset.source_path dataset)] ;;
  src_crs <- _build_crs (Dataset.source_crs dataset) ;;
  transform <- _build_transform src_crs dest_crs ;;
  qgs_features <- build_features (Dataset.features dataset) transform ;;
  success <- _write_features qgs_features dest_crs ;;
  logging INFO "文件 %s 处理耗时 %.2f ms"
          [AStr (Dataset.source_path dataset); AElapsed] ;;
  let status := if success then "processed" else "failed" in
  print [("hash", Dataset.hash dataset); ("status", status)].

(** One iteration: [try] / [except Exception] / [finally]. *)
Definition export_iteration (dataset : Dataset.t) (dest_crs : Obj Crs) : M unit :=
  modify (set_current_dataset (Some dataset)) ;;
  try_finally
    (try_except
       (export_dataset dataset dest_crs)
       (fun e =>
          logging ERROR "处理文件 %s 时发生意外错误: %s"
                  [AStr (Dataset.source_path dataset); AExn e] ;;
          print [("hash", Dataset.hash dataset); ("status", "failed");
                 ("error", exn_msg e)]))
    (set_current_dataset None).

Fixpoint for_each {A} (xs : list A) (body : A -> M unit) : M unit :=
  match xs with
  | [] => ret tt
  | x :: xs' => body x ;; for_each xs' body
  end.

Definition run_export : M unit :=
  p <- gets payload ;;
  logging INFO "开始处理 %d 个文件..."
          [AInt (Z.of_nat (length (ExportPayload.datasets p)))] ;;
  dest_crs <- _build_crs (ExportPayload.target_crs p) ;;
  for_each (ExportPayload.datasets p)
           (fun dataset => export_iteration dataset dest_crs).

(** *** [GeoProcessor.__init__] *)
Definition __init__ (payload : ExportPayload.t) (p : Process) : outcome State * Process :=
  let self := mkState payload _build_fields ∅ ∅ None None p in
  match _build_crs "EPSG:4526" self with
  | (Raise e, self) => (Raise e, proc self)
  | (Ret c, self) =>
      let self := set_current_dataset None (set_default_crs (Some c) self) in
      let self := (logging INFO "GeoProcessor 初始化完成，任务负载已加载。" [] self).2 in
      (Ret self, proc self)
  end.

(** ** [main] *)

(** How the process ends: with an exit code, or, for a document whose shape
    [from_dict] accepts but whose values are not of the declared types,
    outside what this development follows. *)
Inductive Exit : Type :=
| ExitCode (code : Z)
| Untyped.

(** The two [except] clauses of [main], both ending in [sys.exit(1)]. *)
Definition main_except (e : PyExn) (input_data : string) (p : Process) : Exit * Process :=
  match exn_class e with
  | JSONDecodeError =>
      (ExitCode 1,
       emit_log (mkLog ERROR "JSON 解析失败: %s. 输入: '%s...'"
                       [AExn e; AStr (String.substring 0 200 input_data)]) p)
  | _ =>
      (ExitCode 1, emit_log (mkLog ERROR "脚本执行期间发生未知错误: %s" [AExn e]) p)
  end.

(** The body of the second [try] of [main]. *)
Definition main_body (input_data : string) (p : Process) : Exit * Process :=
  if String.eqb input_data "" then
    (ExitCode 0, emit_log (mkLog WARNING "标准输入为空，没有数据需要处理。" []) p)
  else
    match json_loads input_data with
    | Raise e => main_except e input_data p
    | Ret raw_payload =>
        match from_dict raw_payload with
        | Raise e => main_except e input_data p
        | Ret raw =>
            match typed_payload raw with
            | None => (Untyped, p)
            | Some payload =>
                match __init__ payload p with
                | (Raise e, p) => main_except e input_data p
                | (Ret processor, _) =>
                    match run_export processor with
                    | (Raise e, processor) => main_except e input_data (proc processor)
                    | (Ret _, processor) => (ExitCode 0, proc processor)
                    end
                end
            end
        end
    end.

(** An exception that nothing catches ends the process with status 1. *)
Definition main (argv : list string) (stdin : string) (p : Process) : Exit * Process :=
  match argv !! 1%nat with
  | None =>
      (ExitCode 1,
       emit_log (mkLog ERROR
         "错误: 脚本启动时未提供 QGIS prefix path 作为命令行参数。" []) p)
  | Some prefix_path =>
      match initQgis prefix_path with
      | Raise e => (ExitCode 1, p)
      | Ret _ =>
          let p := emit_log (mkLog INFO "QGIS 环境初始化成功。" []) p in
          let '(code, p) := main_body stdin p in
          (code, emit_log (mkLog INFO "QGIS 环境已清理。" []) p)
      end
  end.

End GeoProcessor.

(** * Vocabulary of the properties *)

Section Vocabulary.
Context `{Q : Qgis}.

(** The value [_extract_attributes] computes for one field. *)
Definition field_value (ds : Dataset.t) (props : dict json) (fd : FieldDef.t) : json :=
  if String.eqb (FieldDef.name fd) "WJLJ"
  then JStr (Dataset.source_path ds)
  else scan_source_keys (default [] (dict_get (FieldDef.name fd) FIELD_MAPPING))
                        props JNull.

(** A run of CRS lookups: [_build_crs] on each identifier in turn. *)
Fixpoint resolve_all (ids : list string) : M (list (Obj Crs)) :=
  match ids with
  | [] => ret []
  | def_crs :: rest =>
      bind (_build_crs def_crs) (fun c =>
      bind (resolve_all rest) (fun cs => ret (c :: cs)))
  end.

(** The answer of the resolver for [s] is settled as [c]: [s] is empty and
    [c] the default, or [s] is cached as [c], or [s] is invalid and [c] the
    default. *)
Definition crs_settled (d : Obj Crs) (st : State) (s : string) (c : Obj Crs) : Prop :=
  (s = "" /\ c = d)
  \/ (s <> "" /\ crs_cache st !! s = Some c)
  \/ (s <> "" /\ crs_cache st !! s = None /\
      isValid (QgsCoordinateReferenceSystem s) = false /\ c = d).

Definition empty_crs_warning : LogRecord :=
  mkLog WARNING "收到了空的 CRS 定义，将使用默认 CRS。" [].

Definition invalid_crs_error (def_crs : string) : LogRecord :=
  mkLog ERROR "无效的 CRS 定义: %s，将使用默认 CRS。" [AStr def_crs].

(** The key of the transform cache. *)
Definition transform_key (src dest : Obj Crs) : string * string :=
  (crs_key src, crs_key dest).

(** How many transform objects the trace shows constructed for the key [k]. *)
Definition is_construction (k : string * string) (e : Event) : bool :=
  match e with
  | NewTransform _ src dest => bool_decide (transform_key src dest = k)
  | _ => false
  end.

Fixpoint constructions (k : string * string) (tr : list Event) : nat :=
  match tr with
  | [] => 0
  | e :: tr' => (if is_construction k e then 1 else 0) + constructions k tr'
  end.





(** [c] only moves the processor along [R]. *)
Definition preserves {A} (R : State -> State -> Prop) (c : M A) : Prop :=
  forall st r st', c st = (r, st') -> R st st'.

(** Two ways a method can relate the processor before and after it: it
    leaves an observation [f] as it was, or it keeps an invariant [I]. *)
Definition unchanged {A} (f : State -> A) (st st' : State) : Prop := f st' = f st.

Definition keeps (I : State -> Prop) (st st' : State) : Prop := I st -> I st'.

(** The lines printed on stdout so far. *)
Definition printed (st : State) : list (dict string) := stdout (proc st).

(** A writer is created for polygons. *)
Definition polygon_writer (e : Event) : Prop :=
  match e with
  | WriterCreate _ _ geometryType _ _ => geometryType = QgsWkbTypes.Polygon
  | _ => True
  end.

(** What no method changes: the payload, the fields and the default CRS
    stay, and the trace only grows, by polygon writers as far as it grows by
    writers. *)
Definition steady (st st' : State) : Prop :=
  payload st' = payload st /\
  fields st' = fields st /\
  default_crs st' = default_crs st /\
  exists new, trace (proc st') = trace (proc st) ++ new /\ Forall polygon_writer new.

(** What every method but [_build_transform] leaves alone: the transform
    cache and the transforms constructed. *)
Definition same_transforms (st st' : State) : Prop :=
  transform_cache st' = transform_cache st /\
  forall k, constructions k (trace (proc st')) = constructions k (trace (proc st)).

(** The two records [run_export] prints for a dataset. *)
Definition result_record (dataset : Dataset.t) (success : bool) : dict string :=
  [("hash", Dataset.hash dataset);
   ("status", if success then "processed" else "failed")].



(** The processor at the start of the loop of [run_export]: after the first
    log line and the lookup of the target CRS. *)
Definition run_export_prologue : M (Obj Crs) :=
  bind (gets payload) (fun p =>
  bind (logging INFO "开始处理 %d 个文件..."
          [AInt (Z.of_nat (length (ExportPayload.datasets p)))]) (fun _ =>
  _build_crs (ExportPayload.target_crs p))).

(** The feature a call of [_create_feature] hands back, if any. *)
Definition built {A} (r : outcome (option A)) : option A :=
  match r with
  | Ret o => o
  | Raise _ => None
  end.

(** What [_create_feature] reads of the processor. *)
Definition feature_context (st : State) : list QgsField * option Dataset.t :=
  (fields st, current_dataset st).

(** The first steps of the [try] body of [run_export], down to the list of
    features handed to [_write_features]. *)
Definition features_to_write (dataset : Dataset.t) (dest_crs : Obj Crs)
    : M (list (QgsFeature Geometry)) :=
  bind (logging INFO "正在处理文件: %s" [AStr (Dataset.source_path dataset)]) (fun _ =>
  bind (_build_crs (Dataset.source_crs dataset)) (fun src_crs =>
  bind (_build_transform src_crs dest_crs) (fun transform =>
  build_features (Dataset.features dataset) transform))).

(** The writer [_write_features] opens from the processor [st]: what
    [QgsVectorFileWriter.create] returns for the prepared options. *)
Definition opened_writer (st : State) (dest_crs : Obj Crs)
    (opts : SaveVectorOptions) (target : string) : Writer * World :=
  create (world (proc st)) target (fields st) QgsWkbTypes.Polygon (val dest_crs) opts.

(** A whole run on a payload: the processor is made, then exports. *)
Definition run_payload (payload : ExportPayload.t) (p0 : Process)
    : outcome unit * Process :=
  match __init__ payload p0 with
  | (Raise e, p1) => (Raise e, p1)
  | (Ret processor, _) =>
      let '(r, processor) := run_export processor in (r, proc processor)
  end.

(** The processor [st] with the merge flag of its payload set to [b]. *)
Definition with_merge (b : bool) (st : State) : State :=
  mkState (ExportPayload.with_merge b (payload st)) (fields st) (crs_cache st)
          (transform_cache st) (default_crs st) (current_dataset st) (proc st).

(** [c] does the same whatever the merge flag: same result, same processor
    but for the flag. *)
Definition ignores_merge {A} (c : M A) : Prop :=
  forall b st, c (with_merge b st) = ((c st).1, with_merge b (c st).2).




End Vocabulary.

(** * Vocabulary of the further properties *)

Section More.
Context `{Q : Qgis}.

(** [v] is a dict that has every key of [required], and no key outside
    [required] and [optional]. *)
Definition keyed (required optional : list string) (v : json) : Prop :=
  match v with
  | JObj items =>
      (forall k, k ∈ dict_keys items -> k ∈ optional ++ required) /\
      (forall k, k ∈ required -> is_Some (dict_get k items))
  | _ => False
  end.

(** What [v.get(k, [])] iterates over, for a dict [v]. *)
Definition listed (k : string) (v : json) : outcome (list json) :=
  match py_get v k (JArr []) with
  | Raise e => Raise e
  | Ret l => py_iter l
  end.

Definition feature_shaped (f : json) : Prop := keyed ["properties"; "wkt"] [] f.

Definition dataset_shaped (ds : json) : Prop :=
  keyed ["hash"; "layer_name"; "source_crs"; "source_path"; "total_features"]
        ["features"] ds /\
  exists fs, listed "features" ds = Ret fs /\ Forall feature_shaped fs.

Definition payload_shaped (data : json) : Prop :=
  keyed ["driver"; "merge"; "output_dir"; "overwrite"; "target_crs"]
        ["datasets"] data /\
  exists dss, listed "datasets" data = Ret dss /\ Forall dataset_shaped dss.

(** The CRS the processor holds are valid: the default, and every cached
    one, which is the CRS of the identifier it is cached under. *)
Definition crs_cache_valid (st : State) : Prop :=
  (forall d, default_crs st = Some d -> isValid (val d) = true) /\
  (forall s c,
     crs_cache st !! s = Some c ->
     s <> "" /\ val c = QgsCoordinateReferenceSystem s /\ isValid (val c) = true).

(** A writer is created with a valid CRS. *)
Definition valid_writer (e : Event) : Prop :=
  match e with
  | WriterCreate _ _ _ crs _ => isValid (val crs) = true
  | _ => True
  end.

(** The processor keeps its CRS valid, and what it adds to the trace are
    writers with a valid CRS. *)
Definition keeps_crs_valid (st st' : State) : Prop :=
  crs_cache_valid st ->
  crs_cache_valid st' /\
  exists new, trace (proc st') = trace (proc st) ++ new /\ Forall valid_writer new.

(** Both caches only grow. *)
Definition caches_grow (st st' : State) : Prop :=
  crs_cache st ⊆ crs_cache st' /\ transform_cache st ⊆ transform_cache st'.

(** The log only grows. *)
Definition log_grows (st st' : State) : Prop :=
  exists lines, log (proc st') = log (proc st) ++ lines.

(** No writer is touched: the world stays, and the trace grows by no call
    on a writer. *)
Definition no_writer_call (e : Event) : Prop :=
  match e with
  | WriterCreate _ _ _ _ _ | AddFeatures _ _ | WriterRelease _ => False
  | _ => True
  end.

Definition store_untouched (st st' : State) : Prop :=
  world (proc st') = world (proc st) /\
  exists new, trace (proc st') = trace (proc st) ++ new /\ Forall no_writer_call new.

Definition init_done : LogRecord :=
  mkLog INFO "GeoProcessor 初始化完成，任务负载已加载。" [].

Definition qgis_cleaned : LogRecord := mkLog INFO "QGIS 环境已清理。" [].

(** The property keys [_extract_attributes] looks up: the candidate keys of
    every field but WJLJ. *)
Definition read_keys : list string :=
  fd ← FIELD_DEFINITIONS;
  if String.eqb (FieldDef.name fd) "WJLJ" then []
  else default [] (dict_get (FieldDef.name fd) FIELD_MAPPING).

(** A built feature fits the schema [flds]: it carries these fields, and
    one attribute per field definition. *)
Definition fits_schema (flds : list QgsField) (f : QgsFeature Geometry) : Prop :=
  feature_fields f = flds /\ length (attributes f) = length FIELD_DEFINITIONS.

(** What the writing of one dataset adds to the trace: nothing, or one
    writer session, from the creation of the writer to its release. *)
Definition session_of (pl : ExportPayload.t) (flds : list QgsField)
    (ds : Dataset.t) (dest : Obj Crs) (session : list Event) : Prop :=
  session = [] \/
  exists opts adds,
    let out := mkPath (ExportPayload.output_dir pl) in
    let target :=
      as_posix (if is_container_driver (ExportPayload.driver pl) then out
                else joinpath out (Dataset.layer_name ds)) in
    session = WriterCreate target flds QgsWkbTypes.Polygon dest opts
              :: adds ++ [WriterRelease target] /\
    driverName opts = ExportPayload.driver pl /\
    layerName opts = Dataset.layer_name ds /\
    fileEncoding opts = "UTF-8" /\
    (adds = [] \/
     exists feats,
       feats <> [] /\ adds = [AddFeatures target feats] /\
       Forall (fits_schema flds) feats).

(** What the loop of [run_export] adds to the trace: for each dataset in
    turn, constructions of CRS and transforms, then what its writing adds. *)
Fixpoint run_trace (pl : ExportPayload.t) (flds : list QgsField) (dest : Obj Crs)
    (datasets : list Dataset.t) (new : list Event) : Prop :=
  match datasets with
  | [] => new = []
  | ds :: rest =>
      exists quiet session more,
        new = quiet ++ session ++ more /\
        Forall no_writer_call quiet /\
        session_of pl flds ds dest session /\
        run_trace pl flds dest rest more
  end.

(** The protocol of the writers: a writer is created when none is open,
    features are added once at most, to the open writer, and the open
    writer is released. *)
Inductive WriterState : Type :=
| Closed
| Opened (path : string)
| Written (path : string).

Fixpoint writer_protocol (s : WriterState) (tr : list Event) : option WriterState :=
  match tr with
  | [] => Some s
  | e :: tr' =>
      match e, s with
      | WriterCreate path _ _ _ _, Closed => writer_protocol (Opened path) tr'
      | AddFeatures path _, Opened p =>
          if String.eqb path p then writer_protocol (Written p) tr' else None
      | WriterRelease path, Opened p | WriterRelease path, Written p =>
          if String.eqb path p then writer_protocol Closed tr' else None
      | NewCrs _ _, _ | NewTransform _ _ _, _ => writer_protocol s tr'
      | _, _ => None
      end
  end.

Definition is_creation (e : Event) : bool :=
  match e with
  | WriterCreate _ _ _ _ _ => true
  | _ => false
  end.

Fixpoint writers_created (tr : list Event) : nat :=
  match tr with
  | [] => 0
  | e :: tr' => (if is_creation e then 1 else 0) + writers_created tr'
  end.

(** What a run hands to the writers fits the schema of the processor: every
    writer is created with the fields of [FIELD_DEFINITIONS], and features
    are added as a list that is not empty, of features with these fields
    and as many attributes as fields. *)
Definition schema_event (e : Event) : Prop :=
  match e with
  | WriterCreate _ flds _ _ _ => flds = FieldDef.to_qgs_field <$> FIELD_DEFINITIONS
  | AddFeatures _ feats =>
      feats <> [] /\
      Forall (fun f => feature_fields f = FieldDef.to_qgs_field <$> FIELD_DEFINITIONS /\
                       length (attributes f) = length (feature_fields f)) feats
  | _ => True
  end.

(** A writer of a run on the payload [pl]: created with the fields [flds],
    the target CRS [dest], the driver of the payload and UTF-8, for the
    layer of one of its datasets, at the path of the output for it. *)
Definition writer_of_run (pl : ExportPayload.t) (flds : list QgsField)
    (dest : Obj Crs) (e : Event) : Prop :=
  match e with
  | WriterCreate path flds' _ crs opts =>
      flds' = flds /\ crs = dest /\
      driverName opts = ExportPayload.driver pl /\
      fileEncoding opts = "UTF-8" /\
      exists ds,
        ds ∈ ExportPayload.datasets pl /\
        layerName opts = Dataset.layer_name ds /\
        let out := mkPath (ExportPayload.output_dir pl) in
        path = as_posix (if is_container_driver (ExportPayload.driver pl) then out
                         else joinpath out (Dataset.layer_name ds))
  | _ => True
  end.

(** A dataset, a payload and a processor with every [total_features]
    forgotten. *)
Definition no_total (ds : Dataset.t) : Dataset.t :=
  Dataset.mk (Dataset.features ds) (Dataset.hash ds) (Dataset.layer_name ds)
             (Dataset.source_crs ds) (Dataset.source_path ds) 0.

Definition no_totals (pl : ExportPayload.t) : ExportPayload.t :=
  ExportPayload.mk (no_total <$> ExportPayload.datasets pl) (ExportPayload.driver pl)
                   (ExportPayload.merge pl) (ExportPayload.output_dir pl)
                   (ExportPayload.overwrite pl) (ExportPayload.target_crs pl).

Definition without_totals (st : State) : State :=
  mkState (no_totals (payload st)) (fields st) (crs_cache st) (transform_cache st)
          (default_crs st) (no_total <$> current_dataset st) (proc st).

(** [c'] does on a processor without the totals what [c] does on the
    processor with them: same result, same processor but for the totals. *)
Definition same_without_totals {A} (c c' : M A) : Prop :=
  forall st, c' (without_totals st) = ((c st).1, without_totals (c st).2).

End More.

(** * A small QGIS, to run the script on

    CRS are their definition strings, valid when they start with "EPSG:";
    no transform can be built from EPSG:0, and none applies to the polygon
    at infinity; WKT that does not start with POLYGON parses to the empty
    geometry; the world is the list of the paths that exist, and no writer
    can be created under /readonly; [json.loads] knows the documents of
    [documents], by name; QGIS starts from any prefix path but the empty
    one. *)
Module Small.

Definition valid (s : string) : bool := String.prefix "EPSG:" s.

Definition key (s : string) : string := if valid s then s else "".

Definition to_upper (c : Ascii.ascii) : Ascii.ascii :=
  let n := Ascii.nat_of_ascii c in
  if (97 <=? n)%nat && (n <=? 122)%nat then Ascii.ascii_of_nat (n - 32) else c.

Fixpoint str_upper (s : string) : string :=
  match s with
  | EmptyString => EmptyString
  | String c s' => String (to_upper c) (str_upper s')
  end.

(** Payloads, and the documents [json.loads] returns for them. *)
Definition parcel : Feature.t :=
  Feature.mk [("pid", JStr "001"); ("area", JFloat "120.5")]
             "POLYGON((0 0,1 0,1 1,0 1,0 0))".

Definition point : Feature.t := Feature.mk [("pid", JStr "002")] "POINT(".

Definition far_away : Feature.t :=
  Feature.mk [("pid", JStr "003")] "POLYGON((inf inf))".

Definition parcels : Dataset.t :=
  Dataset.mk [parcel] "a1" "parcels" "EPSG:4490" "/tmp/a.json" 1.

Definition scenario_a : ExportPayload.t :=
  ExportPayload.mk [parcels] "GPKG" false "/out/a.gpkg" true "EPSG:4490".

Definition three_datasets : ExportPayload.t :=
  ExportPayload.mk
    [Dataset.mk [parcel; point; far_away] "b1" "first" "EPSG:4526" "/tmp/b1.json" 3;
     Dataset.mk [parcel] "b2" "second" "EPSG:0" "/tmp/b2.json" 1;
     Dataset.mk [] "b3" "third" "" "/tmp/b3.json" 0]
    "ESRI Shapefile" false "/out" true "EPSG:4490".

Definition no_datasets : ExportPayload.t :=
  ExportPayload.mk [] "GPKG" true "/out/a.gpkg" false "EPSG:4490".

Definition documents : dict json :=
  [ ("scenario A", payload_json scenario_a);
    ("three datasets", payload_json three_datasets);
    ("no datasets", payload_json no_datasets);
    ("a list", JArr []);
    ("no driver", JObj [("datasets", JArr [])]);
    ("no datasets key",
     JObj [("driver", JStr "GPKG"); ("merge", JBool false);
           ("output_dir", JStr "/out/a.gpkg"); ("overwrite", JBool true);
           ("target_crs", JStr "EPSG:4490")]) ].

#[export] Instance qgis : Qgis := {|
  Crs := string;
  Transform := string * string;
  Geometry := string;
  Writer := string * WriterError;
  Path := string;
  World := list string;
  QgsCoordinateReferenceSystem := fun s => s;
  isValid := valid;
  authid := key;
  toWkt := fun s => if valid s then "PROJCRS[" +:+ s +:+ "]" else "";
  crs_eq := fun a b => String.eqb (key a) (key b);
  QgsCoordinateTransform := fun src dest =>
    if String.eqb src "EPSG:0"
    then Raise (mkExn QgsCsException "no coordinate operation from EPSG:0")
    else Ret (src, dest);
  fromWkt := fun s => Ret (if String.prefix "POLYGON" s then s else "");
  isEmpty := fun g => String.eqb g "";
  geometry_transform := fun g t =>
    if String.eqb g "POLYGON((inf inf))"
    then Raise (mkExn QgsCsException "forward transform failed")
    else Ret g;
  create := fun w path flds geometryType crs opts =>
    if String.prefix "/readonly" path
    then ((path, ErrCode 2), w)
    else ((path, NoError), path :: w);
  hasError := fun writer => writer.2;
  errorMessage := fun writer => "cannot create " +:+ writer.1;
  addFeatures := fun w writer feats => (true, w);
  release := fun w writer => w;
  mkPath := fun s => s;
  joinpath := fun p s => p +:+ "/" +:+ s;
  as_posix := fun p => p;
  path_exists := fun w p => bool_decide (p ∈ w);
  upper := str_upper;
  json_loads := fun s =>
    match dict_get s documents with
    | Some data => Ret data
    | None => Raise (mkExn JSONDecodeError "Expecting value: line 1 column 1 (char 0)")
    end;
  initQgis := fun prefix_path =>
    if String.eqb prefix_path "" then Raise (mkExn RuntimeError "no QGIS at the prefix path")
    else Ret tt
|}.

(** A process that has done nothing yet, in a world without files. *)
Definition fresh : Process := mkProcess 0 [] [] [] [].

Definition epsg4526 : Obj string := mkObj 0%nat "EPSG:4526".

(** A processor as [__init__] leaves it, with [cur] as current dataset. *)
Definition processor (pl : ExportPayload.t) (cur : option Dataset.t) : State :=
  mkState pl _build_fields {["EPSG:4526" := epsg4526]} ∅ (Some epsg4526) cur
          (mkProcess 1 [] [] [NewCrs epsg4526 "EPSG:4526"] []).

Definition at_work : State := processor scenario_a (Some parcels).

End Small.

(** * Properties *)

Section Properties.
Context `{Q : Qgis}.

Notation "x <- c ;; k" := (bind c (fun x => k))
  (at level 100, c at next level, right associativity).
Notation "c ;; k" := (bind c (fun _ => k))
  (at level 100, right associativity).

(** ** Attribute extraction *)

Lemma fold_left_snoc_map {A B} (f : A -> B) (l : list A) (acc : list B) :
  fold_left (fun acc x => acc ++ [f x]) l acc = acc ++ map f l.
Proof.
  revert acc. induction l as [|x l IH]; intros acc; simpl.
  - by rewrite app_nil_r.
  - rewrite IH. by rewrite <- app_assoc.
Qed.

(** The scan returns the value of the first key present, else its start value. *)
Lemma scan_source_keys_first (keys : list string) (props : dict json) (v0 : json) :
  (Forall (fun k => dict_get k props = None) keys /\
   scan_source_keys keys props v0 = v0)
  \/ (exists pre k post v,
        keys = pre ++ k :: post /\
        Forall (fun k' => dict_get k' props = None) pre /\
        dict_get k props = Some v /\
        scan_source_keys keys props v0 = v).
Proof.
  induction keys as [|k keys IH]; simpl.
  - left. split; [constructor | reflexivity].
  - unfold dict_mem. destruct (dict_get k props) as [v|] eqn:Hk.
    + right. exists [], k, keys, v. repeat split; auto.
    + destruct IH as [[Hall Hs] | (pre & k' & post & v & -> & Hpre & Hk' & Hs)].
      * left. split; [by constructor | done].
      * right. exists (k :: pre), k', post, v. repeat split; auto.
Qed.

Lemma extract_attributes_eq (st : State) (ds : Dataset.t) (props : dict json) :
  current_dataset st = Some ds ->
  _extract_attributes props st = (Ret (map (field_value ds props) FIELD_DEFINITIONS), st).
Proof.
  intros Hcur. unfold _extract_attributes, bind, gets. rewrite Hcur.
  unfold ret.
  change (fold_left _ FIELD_DEFINITIONS [])
    with (fold_left (fun acc fd => acc ++ [field_value ds props fd])
                    FIELD_DEFINITIONS []).
  by rewrite fold_left_snoc_map.
Qed.

Lemma extract_attributes_unset (st : State) (props : dict json) :
  current_dataset st = None ->
  exists e, _extract_attributes props st = (Raise e, st) /\ exn_class e = RuntimeError.
Proof.
  intros Hcur. unfold _extract_attributes, bind, gets. rewrite Hcur.
  eexists. split; reflexivity.
Qed.

(** C5. With a current dataset set, attribute extraction returns, for every
    property map, one value per field definition, in the order of
    [FIELD_DEFINITIONS]: the field WJLJ carries the source path of the
    current dataset whatever the property map holds; any other field carries
    the value of the first key of its [FIELD_MAPPING] list that the property
    map has, and None (JSON null) when it has none of them.  The call does
    not raise and leaves the processor as it was. *)
Theorem extract_attributes_schema_order
    (st : State) (ds : Dataset.t) (props : dict json) :
  current_dataset st = Some ds ->
  exists attrs : list json,
    _extract_attributes props st = (Ret attrs, st) /\
    length attrs = length FIELD_DEFINITIONS /\
    forall (i : nat) (fd : FieldDef.t),
      FIELD_DEFINITIONS !! i = Some fd ->
      exists v : json,
        attrs !! i = Some v /\
        (FieldDef.name fd = "WJLJ" -> v = JStr (Dataset.source_path ds)) /\
        (FieldDef.name fd <> "WJLJ" ->
         let keys := default [] (dict_get (FieldDef.name fd) FIELD_MAPPING) in
         (Forall (fun k => dict_get k props = None) keys /\ v = JNull)
         \/ (exists pre k post,
               keys = pre ++ k :: post /\
               Forall (fun k' => dict_get k' props = None) pre /\
               dict_get k props = Some v)).
Proof.
  intros Hcur. eexists. split; [by apply extract_attributes_eq |].
  split; [by rewrite length_map |].
  intros i fd Hfd. exists (field_value ds props fd).
  split; [by rewrite list_lookup_fmap, Hfd |].
  unfold field_value. split.
  - intros ->. reflexivity.
  - intros Hne. apply String.eqb_neq in Hne. rewrite Hne. cbv zeta.
    destruct (scan_source_keys_first
                (default [] (dict_get (FieldDef.name fd) FIELD_MAPPING)) props JNull)
      as [[Hall Hs] | (pre & k & post & v & Hk & Hpre & Hget & Hs)].
    + left. by split.
    + right. exists pre, k, post. rewrite Hs. by repeat split.
Qed.

(** ** Parsing *)

Lemma make_feature_json (f : Feature.t) :
  make_feature (feature_json f)
  = Ret (Raw.mkFeature (JObj (Feature.properties f)) (JStr (Feature.wkt f))).
Proof. reflexivity. Qed.

Lemma comprehension_fmap {A B C} (f : B -> outcome C) (h : A -> B) (g : A -> C)
    (xs : list A) :
  (forall x, f (h x) = Ret (g x)) -> comprehension f (h <$> xs) = Ret (g <$> xs).
Proof.
  intros H. induction xs as [|x xs IH]; [done |].
  rewrite !fmap_cons. cbn [comprehension]. by rewrite H, IH.
Qed.

Lemma make_dataset_json (d : Dataset.t) :
  make_dataset (dataset_json d) = Ret (raw_dataset d).
Proof.
  destruct d as [fs h l c sp n]. unfold make_dataset, dataset_json. simpl.
  by rewrite (comprehension_fmap make_feature feature_json raw_feature).
Qed.

Lemma typed_raw_dataset (d : Dataset.t) : typed_dataset (raw_dataset d) = Some d.
Proof.
  destruct d as [fs h l c sp n]. unfold typed_dataset, raw_dataset. simpl.
  rewrite (mapM_fmap_Some typed_feature); [done |]. by intros [??].
Qed.

(** Every payload has a document, which [from_dict] turns back into it. *)
Lemma from_dict_payload_json (pl : ExportPayload.t) :
  exists raw, from_dict (payload_json pl) = Ret raw /\ typed_payload raw = Some pl.
Proof.
  destruct pl as [dss dr m o ov t]. unfold from_dict, payload_json. simpl.
  rewrite (comprehension_fmap make_dataset dataset_json raw_dataset _ make_dataset_json).
  eexists. split; [reflexivity |].
  unfold typed_payload. simpl.
  by rewrite (mapM_fmap_Some typed_dataset raw_dataset _ typed_raw_dataset).
Qed.

(** ** Reasoning about methods *)

Ltac run_monad :=
  unfold logging, print, record_event, new_object, get_default_crs in *;
  unfold bind, ret, raise, gets, modify, lift, try_except, try_finally in *;
  simpl in *.

Section Preserves.
Context (R : State -> State -> Prop) `{!PreOrder R}.

Lemma preserves_ret {A} (a : A) : preserves R (ret a).
Proof. intros st r st' [= <- <-]. reflexivity. Qed.

Lemma preserves_raise {A} (e : PyExn) : preserves R (@raise _ A e).
Proof. intros st r st' [= <- <-]. reflexivity. Qed.

Lemma preserves_gets {A} (f : State -> A) : preserves R (gets f).
Proof. intros st r st' [= <- <-]. reflexivity. Qed.

Lemma preserves_lift {A} (o : outcome A) : preserves R (lift o).
Proof. intros st r st' [= <- <-]. reflexivity. Qed.

Lemma preserves_modify (f : State -> State) :
  (forall st, R st (f st)) -> preserves R (modify f).
Proof. intros Hf st r st' [= <- <-]. apply Hf. Qed.

Lemma preserves_bind {A B} (c : M A) (k : A -> M B) :
  preserves R c -> (forall a, preserves R (k a)) -> preserves R (bind c k).
Proof.
  intros Hc Hk st r st'. unfold bind.
  destruct (c st) as [[a|e] st1] eqn:E; intros H.
  - transitivity st1; [by eapply Hc | by eapply Hk].
  - injection H as <- <-. by eapply Hc.
Qed.

Lemma preserves_try_except {A} (body : M A) (handler : PyExn -> M A) :
  preserves R body -> (forall e, preserves R (handler e)) ->
  preserves R (try_except body handler).
Proof.
  intros Hb Hh st r st'. unfold try_except.
  destruct (body st) as [[a|e] st1] eqn:E; intros H.
  - injection H as <- <-. by eapply Hb.
  - transitivity st1; [by eapply Hb | by eapply Hh].
Qed.

Lemma preserves_try_finally {A} (body : M A) (final : State -> State) :
  preserves R body -> (forall st, R st (final st)) ->
  preserves R (try_finally body final).
Proof.
  intros Hb Hf st r st'. unfold try_finally.
  destruct (body st) as [r1 st1] eqn:E. intros [= <- <-].
  transitivity st1; [by eapply Hb | apply Hf].
Qed.

Lemma preserves_for_each {A} (xs : list A) (body : A -> M unit) :
  (forall x, preserves R (body x)) -> preserves R (for_each xs body).
Proof.
  intros Hb. induction xs as [|x xs IH]; simpl.
  - apply preserves_ret.
  - apply preserves_bind; auto.
Qed.
End Preserves.

#[local] Instance unchanged_preorder {A} (f : State -> A) : PreOrder (unchanged f).
Proof. split; unfold unchanged; [by intros ? | intros ??? H1 H2; congruence]. Qed.

#[local] Instance keeps_preorder (I : State -> Prop) : PreOrder (keeps I).
Proof. split; unfold keeps; [by intros ? | intros ??? H1 H2 ?; auto]. Qed.

Lemma preserves_build_features (R : State -> State -> Prop) `{!PreOrder R}
    (feats : list Feature.t) (transform : option (Obj Transform)) :
  (forall fd, preserves R (_create_feature fd transform)) ->
  preserves R (build_features feats transform).
Proof.
  intros H. induction feats as [|fd feats IH]; simpl.
  - apply preserves_ret; apply _.
  - apply preserves_bind; [apply _ | apply H | intros ?].
    apply preserves_bind; [apply _ | apply IH | intros ?].
    apply preserves_ret; apply _.
Qed.

(** Splits a method into its primitive steps and leaves, for each
    assignment it makes, the obligation that the assignment follows the
    relation.  [known] is tried first on every step. *)
Ltac preserves_with known :=
  repeat first
    [ known
    | apply preserves_ret; apply _
    | apply preserves_raise; apply _
    | apply preserves_gets; apply _
    | apply preserves_lift; apply _
    | apply preserves_modify; intros ?
    | apply preserves_bind; [apply _ | | intros ?]
    | apply preserves_try_except; [apply _ | | intros ?]
    | apply preserves_try_finally; [apply _ | | intros ?]
    | apply preserves_for_each; [apply _ | intros ?]
    | apply preserves_build_features; [apply _ | intros ?]
    | match goal with
      | |- preserves _ (if ?b then _ else _) => destruct b
      | |- preserves _ (match ?x with _ => _ end) => destruct x
      | |- preserves _ (let '(_, _) := ?x in _) => destruct x
      | |- preserves _ (_build_crs _) => unfold _build_crs
      | |- preserves _ (let _ := _ in _) => cbv zeta
      end ].

Ltac preserves_tac := preserves_with fail.

#[local] Instance steady_preorder : PreOrder steady.
Proof.
  split.
  - intros st. repeat split. exists []. by rewrite app_nil_r.
  - intros st1 st2 st3 (Hp & Hf & Hd & new1 & Ht1 & Hn1) (Hp' & Hf' & Hd' & new2 & Ht2 & Hn2).
    repeat split; try congruence.
    exists (new1 ++ new2). rewrite Ht2, Ht1, app_assoc.
    split; [done | by apply Forall_app].
Qed.

#[local] Instance same_transforms_preorder : PreOrder same_transforms.
Proof.
  split.
  - by intros st.
  - intros st1 st2 st3 [Hc H] [Hc' H']. split; [congruence |].
    intros k. by rewrite H', H.
Qed.

Lemma constructions_app (k : string * string) (tr1 tr2 : list Event) :
  constructions k (tr1 ++ tr2) = (constructions k tr1 + constructions k tr2)%nat.
Proof. induction tr1 as [|e tr1 IH]; simpl; [done | rewrite IH; lia]. Qed.

(** An assignment to the log, to stdout, to the allocator, to a cache or to
    the current dataset is steady, and so is one more event that is not the
    creation of a writer for another geometry type. *)
Ltac steady_leaf :=
  repeat split;
  first [ by (exists []; rewrite app_nil_r)
        | by (eexists [_]; split; [reflexivity | by repeat constructor]) ].

Ltac same_transforms_leaf :=
  split; [reflexivity | intros ?; simpl; rewrite ?constructions_app; simpl; lia].

(** ** The CRS cache *)

Lemma build_crs_empty (st : State) (d : Obj Crs) :
  default_crs st = Some d ->
  _build_crs "" st = (Ret d, set_proc (emit_log empty_crs_warning (proc st)) st).
Proof. intros Hd. unfold _build_crs. run_monad. by rewrite Hd. Qed.

Lemma build_crs_cached (st : State) (s : string) (c : Obj Crs) :
  s <> "" -> crs_cache st !! s = Some c -> _build_crs s st = (Ret c, st).
Proof.
  intros Hs Hc. unfold _build_crs. apply String.eqb_neq in Hs. rewrite Hs.
  run_monad. by rewrite Hc.
Qed.

Lemma build_crs_invalid (st : State) (d : Obj Crs) (s : string) :
  default_crs st = Some d -> s <> "" -> crs_cache st !! s = None ->
  isValid (QgsCoordinateReferenceSystem s) = false ->
  exists st',
    _build_crs s st = (Ret d, st') /\
    log (proc st') = log (proc st) ++ [invalid_crs_error s] /\
    crs_cache st' = crs_cache st /\
    default_crs st' = default_crs st.
Proof.
  intros Hd Hs Hc Hv. unfold _build_crs. apply String.eqb_neq in Hs. rewrite Hs.
  run_monad. rewrite Hc. simpl. rewrite Hv. simpl. rewrite Hd.
  eexists. split; [reflexivity |]. by repeat split.
Qed.

Lemma build_crs_valid (st : State) (s : string) :
  s <> "" -> crs_cache st !! s = None ->
  isValid (QgsCoordinateReferenceSystem s) = true ->
  exists st',
    _build_crs s st
    = (Ret (mkObj (next_oid (proc st)) (QgsCoordinateReferenceSystem s)), st') /\
    log (proc st') = log (proc st) /\
    crs_cache st'
    = <[s := mkObj (next_oid (proc st)) (QgsCoordinateReferenceSystem s)]> (crs_cache st) /\
    default_crs st' = default_crs st.
Proof.
  intros Hs Hc Hv. unfold _build_crs. apply String.eqb_neq in Hs. rewrite Hs.
  run_monad. rewrite Hc. simpl. rewrite Hv. simpl.
  eexists. split; [reflexivity |]. by repeat split.
Qed.

(** Every lookup returns, settles its own answer and keeps the default. *)
Lemma build_crs_settles (st : State) (d : Obj Crs) (s : string) :
  default_crs st = Some d ->
  exists c st',
    _build_crs s st = (Ret c, st') /\
    default_crs st' = Some d /\
    crs_settled d st' s c.
Proof.
  intros Hd. destruct (decide (s = "")) as [-> | Hs].
  - eexists _, _. split; [by apply build_crs_empty |].
    split; [done | by left].
  - destruct (crs_cache st !! s) as [c|] eqn:Hc.
    + exists c, st. split; [by apply build_crs_cached |].
      split; [done | right; left; done].
    + destruct (isValid (QgsCoordinateReferenceSystem s)) eqn:Hv.
      * destruct (build_crs_valid st s Hs Hc Hv) as (st' & E & _ & Hc' & Hd').
        eexists _, st'. split; [exact E |]. split; [congruence |].
        right; left. split; [done |]. rewrite Hc'. apply lookup_insert_eq.
      * destruct (build_crs_invalid st d s Hd Hs Hc Hv) as (st' & E & _ & Hc' & Hd').
        exists d, st'. split; [exact E |]. split; [congruence |].
        right; right. rewrite Hc'. done.
Qed.

(** A settled answer stays settled across any other lookup. *)
Lemma crs_settled_step (st st' : State) (d c c' : Obj Crs) (s s' : string) :
  default_crs st = Some d ->
  crs_settled d st s c ->
  _build_crs s' st = (Ret c', st') ->
  crs_settled d st' s c.
Proof.
  intros Hd Hset E.
  destruct (decide (s' = "")) as [-> | Hs'].
  { rewrite (build_crs_empty st d Hd) in E. injection E as _ <-. exact Hset. }
  destruct (crs_cache st !! s') as [c0|] eqn:Hc.
  { rewrite (build_crs_cached st s' c0 Hs' Hc) in E. injection E as _ <-. exact Hset. }
  destruct (isValid (QgsCoordinateReferenceSystem s')) eqn:Hv.
  - destruct (build_crs_valid st s' Hs' Hc Hv) as (st1 & E1 & _ & Hc1 & _).
    rewrite E1 in E. injection E as _ <-.
    destruct Hset as [H | [[Hs Hsc] | (Hs & Hsc & Hsv & ->)]].
    + by left.
    + right; left. split; [done |]. rewrite Hc1.
      rewrite lookup_insert_ne; [done | congruence].
    + right; right. rewrite Hc1.
      rewrite lookup_insert_ne; [done | congruence].
  - destruct (build_crs_invalid st d s' Hd Hs' Hc Hv) as (st1 & E1 & _ & Hc1 & _).
    rewrite E1 in E. injection E as _ <-.
    unfold crs_settled. rewrite Hc1. exact Hset.
Qed.

(** A settled answer is the answer. *)
Lemma crs_settled_answer (st : State) (d c : Obj Crs) (s : string) :
  default_crs st = Some d ->
  crs_settled d st s c ->
  exists st', _build_crs s st = (Ret c, st').
Proof.
  intros Hd [[-> ->] | [[Hs Hc] | (Hs & Hc & Hv & ->)]].
  - eexists. by apply build_crs_empty.
  - eexists. by apply build_crs_cached.
  - destruct (build_crs_invalid st d s Hd Hs Hc Hv) as (st' & E & _). eauto.
Qed.

Lemma resolve_all_total (ids : list string) (st : State) (d : Obj Crs) :
  default_crs st = Some d ->
  exists cs st',
    resolve_all ids st = (Ret cs, st') /\ default_crs st' = Some d /\
    length cs = length ids.
Proof.
  revert st. induction ids as [|s ids IH]; intros st Hd; simpl.
  - by exists [], st.
  - destruct (build_crs_settles st d s Hd) as (c & st1 & E & Hd1 & _).
    destruct (IH st1 Hd1) as (cs & st2 & E2 & Hd2 & Hlen).
    exists (c :: cs), st2. unfold bind. rewrite E, E2. simpl.
    by rewrite Hlen.
Qed.

Lemma resolve_all_settled (ids : list string) (st st' : State) (d c : Obj Crs)
    (s : string) (cs : list (Obj Crs)) :
  default_crs st = Some d ->
  crs_settled d st s c ->
  resolve_all ids st = (Ret cs, st') ->
  forall j, ids !! j = Some s -> cs !! j = Some c.
Proof.
  revert st cs. induction ids as [|s0 ids IH]; intros st cs Hd Hset E j Hj.
  - by destruct j.
  - simpl in E. unfold bind in E.
    destruct (build_crs_settles st d s0 Hd) as (c0 & st1 & E0 & Hd1 & _).
    rewrite E0 in E.
    destruct (resolve_all ids st1) as [[cs1|e] st2] eqn:E1; [| done].
    injection E as <- <-.
    destruct j as [|j]; simpl in *.
    + injection Hj as ->.
      destruct (crs_settled_answer st d c s Hd Hset) as (st3 & E3).
      congruence.
    + exact (IH st1 cs1 Hd1 (crs_settled_step st st1 d c c0 s s0 Hd Hset E0) E1 j Hj).
Qed.

Lemma resolve_all_reuse (ids : list string) (st st' : State) (d : Obj Crs)
    (cs : list (Obj Crs)) :
  default_crs st = Some d ->
  resolve_all ids st = (Ret cs, st') ->
  forall i j s ci cj,
    ids !! i = Some s -> ids !! j = Some s ->
    cs !! i = Some ci -> cs !! j = Some cj -> ci = cj.
Proof.
  revert st cs. induction ids as [|s0 ids IH]; intros st cs Hd E i j s ci cj Hi Hj Hci Hcj.
  - by destruct i.
  - simpl in E. unfold bind in E.
    destruct (build_crs_settles st d s0 Hd) as (c0 & st1 & E0 & Hd1 & Hset).
    rewrite E0 in E.
    destruct (resolve_all ids st1) as [[cs1|e] st2] eqn:E1; [| done].
    injection E as <- <-.
    destruct i as [|i], j as [|j]; simpl in *.
    + congruence.
    + injection Hi as ->. injection Hci as ->.
      pose proof (resolve_all_settled ids st1 st2 d ci s cs1 Hd1 Hset E1 j Hj).
      congruence.
    + injection Hj as ->. injection Hcj as ->.
      pose proof (resolve_all_settled ids st1 st2 d cj s cs1 Hd1 Hset E1 i Hi).
      congruence.
    + exact (IH st1 cs1 Hd1 E1 i j s ci cj Hi Hj Hci Hcj).
Qed.

Lemma build_crs_keeps_settled (d c : Obj Crs) (s s' : string) :
  preserves (keeps (fun st => default_crs st = Some d /\ crs_settled d st s c))
            (_build_crs s').
Proof.
  intros st r st' E [Hd Hset].
  destruct (build_crs_settles st d s' Hd) as (c' & st1 & E1 & Hd1 & _).
  rewrite E1 in E. injection E as <- <-.
  split; [done | exact (crs_settled_step st st1 d c c' s s' Hd Hset E1)].
Qed.

Lemma run_export_keeps_settled (d c : Obj Crs) (s : string) :
  preserves (keeps (fun st => default_crs st = Some d /\ crs_settled d st s c))
            run_export.
Proof.
  unfold run_export, export_iteration.
  preserves_with ltac:(apply build_crs_keeps_settled); by intros [Hd Hset].
Qed.

(** When EPSG:4526 is valid the processor is made, with it as default. *)
Lemma init_sets_default (pl : ExportPayload.t) (p : Process) :
  isValid (QgsCoordinateReferenceSystem "EPSG:4526") = true ->
  exists st d, __init__ pl p = (Ret st, proc st) /\ default_crs st = Some d.
Proof.
  intros Hv. unfold __init__.
  set (self := mkState pl _build_fields ∅ ∅ None None p).
  destruct (build_crs_valid self "EPSG:4526") as (st1 & E & _); [done | done | done |].
  rewrite E. eexists _, _. by split.
Qed.

(** C3. When EPSG:4526 is a valid CRS, [__init__] sets the default CRS.  On
    a processor whose default CRS is set, CRS resolution never raises,
    whatever the identifier.  The empty identifier logs a warning and
    returns the default CRS.  An identifier that is not cached and does not
    give a valid CRS logs an error naming it and returns the default CRS,
    and the cache is left as it was.  In any run of lookups, two lookups of
    the same identifier return the same object; and what a lookup returned
    is what the same lookup returns after a whole [run_export]. *)
Theorem build_crs_total_and_reused :
  (forall pl p,
     isValid (QgsCoordinateReferenceSystem "EPSG:4526") = true ->
     exists st d, __init__ pl p = (Ret st, proc st) /\ default_crs st = Some d) /\
  forall (st : State) (d : Obj Crs),
    default_crs st = Some d ->
    (forall s, exists c st', _build_crs s st = (Ret c, st')) /\
    (exists st',
       _build_crs "" st = (Ret d, st') /\
       log (proc st') = log (proc st) ++ [empty_crs_warning] /\
       crs_cache st' = crs_cache st) /\
    (forall s,
       s <> "" -> crs_cache st !! s = None ->
       isValid (QgsCoordinateReferenceSystem s) = false ->
       exists st',
         _build_crs s st = (Ret d, st') /\
         log (proc st') = log (proc st) ++ [invalid_crs_error s] /\
         crs_cache st' = crs_cache st) /\
    (forall ids, exists cs st',
       resolve_all ids st = (Ret cs, st') /\
       length cs = length ids /\
       forall i j s ci cj,
         ids !! i = Some s -> ids !! j = Some s ->
         cs !! i = Some ci -> cs !! j = Some cj -> ci = cj) /\
    (forall s c st1 r st2,
       _build_crs s st = (Ret c, st1) ->
       run_export st1 = (r, st2) ->
       exists st3, _build_crs s st2 = (Ret c, st3)).
Proof.
  split; [exact init_sets_default |].
  intros st d Hd. repeat split.
  - intros s. destruct (build_crs_settles st d s Hd) as (c & st' & E & _). eauto.
  - eexists. split; [by apply build_crs_empty |]. by split.
  - intros s Hs Hc Hv.
    destruct (build_crs_invalid st d s Hd Hs Hc Hv) as (st' & E & Hl & Hc' & _).
    eauto.
  - intros ids.
    destruct (resolve_all_total ids st d Hd) as (cs & st' & E & _ & Hlen).
    exists cs, st'. split; [done |]. split; [done |].
    by eapply resolve_all_reuse.
  - intros s c st1 r st2 E Erun.
    destruct (build_crs_settles st d s Hd) as (c' & st1' & E' & Hd1 & Hset).
    rewrite E in E'. injection E' as <- <-.
    destruct (run_export_keeps_settled d c s st1 r st2 Erun (conj Hd1 Hset))
      as [Hd2 Hset2].
    by eapply crs_settled_answer.
Qed.

(** ** The transform cache *)

Lemma build_transform_cached (st : State) (src dest : Obj Crs) (t : Obj Transform) :
  transform_cache st !! transform_key src dest = Some t ->
  _build_transform src dest st = (Ret (Some t), st).
Proof.
  intros Hc. unfold _build_transform. run_monad.
  unfold transform_key in Hc. by rewrite Hc.
Qed.

Lemma build_transform_same (st : State) (src dest : Obj Crs) :
  transform_cache st !! transform_key src dest = None ->
  crs_eq (val src) (val dest) = true ->
  _build_transform src dest st = (Ret None, st).
Proof.
  intros Hc He. unfold _build_transform. run_monad.
  unfold transform_key in Hc. by rewrite Hc, He.
Qed.

Lemma build_transform_raises (st : State) (src dest : Obj Crs) (e : PyExn) :
  transform_cache st !! transform_key src dest = None ->
  crs_eq (val src) (val dest) = false ->
  QgsCoordinateTransform (val src) (val dest) = Raise e ->
  _build_transform src dest st = (Raise e, st).
Proof.
  intros Hc He Hv. unfold _build_transform. run_monad.
  unfold transform_key in Hc. by rewrite Hc, He, Hv.
Qed.

Lemma build_transform_new (st : State) (src dest : Obj Crs) (v : Transform) :
  transform_cache st !! transform_key src dest = None ->
  crs_eq (val src) (val dest) = false ->
  QgsCoordinateTransform (val src) (val dest) = Ret v ->
  exists st',
    _build_transform src dest st = (Ret (Some (mkObj (next_oid (proc st)) v)), st') /\
    transform_cache st'
    = <[transform_key src dest := mkObj (next_oid (proc st)) v]> (transform_cache st) /\
    trace (proc st')
    = trace (proc st) ++ [NewTransform (mkObj (next_oid (proc st)) v) src dest].
Proof.
  intros Hc He Hv. unfold _build_transform. run_monad.
  unfold transform_key in Hc. rewrite Hc, He, Hv.
  eexists. split; [reflexivity |]. by split.
Qed.


(** One request only adds to the cache, and caches what it answers. *)
Lemma build_transform_grows (st st' : State) (src dest : Obj Crs)
    (r : outcome (option (Obj Transform))) :
  _build_transform src dest st = (r, st') ->
  transform_cache st ⊆ transform_cache st' /\
  (forall t, r = Ret (Some t) ->
             transform_cache st' !! transform_key src dest = Some t).
Proof.
  intros E.
  destruct (transform_cache st !! transform_key src dest) as [t|] eqn:Hc.
  { rewrite (build_transform_cached st src dest t Hc) in E. injection E as <- <-.
    split; [done |]. by intros t' [= <-]. }
  destruct (crs_eq (val src) (val dest)) eqn:He.
  { rewrite (build_transform_same st src dest Hc He) in E. injection E as <- <-.
    split; [done |]. intros t [=]. }
  destruct (QgsCoordinateTransform (val src) (val dest)) as [v|e] eqn:Hv.
  2:{ rewrite (build_transform_raises st src dest e Hc He Hv) in E.
      injection E as <- <-. split; [done |]. intros t [=]. }
  destruct (build_transform_new st src dest v Hc He Hv) as (st1 & E1 & Hc1 & Ht1).
  rewrite E1 in E. injection E as <- <-. split.
  - rewrite Hc1. by apply insert_subseteq.
  - intros t [= <-]. rewrite Hc1. apply lookup_insert_eq.
Qed.










Lemma build_crs_same_transforms (s : string) :
  preserves same_transforms (_build_crs s).
Proof. preserves_tac; same_transforms_leaf. Qed.




(** ** Feature construction *)

Lemma create_feature_body_pure (fd : Feature.t) (tr : option (Obj Transform)) :
  preserves (unchanged (fun st => st)) (create_feature_body fd tr).
Proof. preserves_tac. Qed.

Lemma create_feature_total (fd : Feature.t) (tr : option (Obj Transform)) (st : State) :
  exists r st', _create_feature fd tr st = (Ret r, st').
Proof.
  unfold _create_feature, try_except.
  destruct (create_feature_body fd tr st) as [[r|e] st1]; run_monad; eauto.
Qed.

Lemma create_feature_caught (fd : Feature.t) (tr : option (Obj Transform))
    (st st1 : State) (e : PyExn) :
  create_feature_body fd tr st = (Raise e, st1) ->
  _create_feature fd tr st
  = (Ret None, set_proc (emit_log (create_feature_error fd e) (proc st)) st).
Proof.
  intros E. pose proof (create_feature_body_pure fd tr st _ _ E) as Hst.
  unfold unchanged in Hst. subst st1.
  unfold _create_feature, try_except. rewrite E. by run_monad.
Qed.

Lemma create_feature_context (fd : Feature.t) (tr : option (Obj Transform)) :
  preserves (unchanged feature_context) (_create_feature fd tr).
Proof. preserves_tac; reflexivity. Qed.

(** The body reads the fields and the current dataset, nothing else. *)
Lemma create_feature_body_reads (fd : Feature.t) (tr : option (Obj Transform))
    (st st0 : State) :
  feature_context st = feature_context st0 ->
  (create_feature_body fd tr st).1 = (create_feature_body fd tr st0).1.
Proof.
  unfold feature_context. intros [= Hf Hc].
  unfold create_feature_body, _extract_attributes. run_monad. rewrite Hf, Hc.
  destruct (current_dataset st0); simpl; [| done].
  destruct (Feature.wkt fd =? ""); simpl; [done |].
  destruct (fromWkt (Feature.wkt fd)) as [g|e]; simpl; [| done].
  destruct (isEmpty g); simpl; [done |].
  destruct tr as [t0|]; simpl; [| done].
  by destruct (geometry_transform g (val t0)).
Qed.

Lemma create_feature_reads (fd : Feature.t) (tr : option (Obj Transform))
    (st st0 : State) :
  feature_context st = feature_context st0 ->
  (_create_feature fd tr st).1 = (_create_feature fd tr st0).1.
Proof.
  intros H. pose proof (create_feature_body_reads fd tr st st0 H) as Hb.
  unfold _create_feature, try_except.
  destruct (create_feature_body fd tr st) as [[r|e] st1],
           (create_feature_body fd tr st0) as [[r0|e0] st2];
    simpl in Hb; try done; by run_monad.
Qed.

(** The list comprehension keeps, in order, the features that were built. *)
Lemma build_features_keeps_built (feats : list Feature.t)
    (tr : option (Obj Transform)) (st st0 : State) :
  feature_context st = feature_context st0 ->
  (build_features feats tr st).1
  = Ret (omap (fun fd => built (_create_feature fd tr st0).1) feats).
Proof.
  revert st. induction feats as [|fd feats IH]; intros st Hctx; simpl.
  - done.
  - unfold bind at 1.
    destruct (create_feature_total fd tr st) as (r & st1 & E).
    rewrite E. unfold bind at 1.
    pose proof (create_feature_context fd tr st _ _ E) as Hctx1.
    unfold unchanged in Hctx1.
    assert (H1 : feature_context st1 = feature_context st0) by congruence.
    specialize (IH st1 H1).
    destruct (build_features feats tr st1) as [[l|e] st2]; simpl in IH; [| done].
    injection IH as ->.
    pose proof (create_feature_reads fd tr st st0 Hctx) as Hr.
    rewrite E in Hr. simpl in Hr. rewrite <- Hr. simpl.
    by destruct r.
Qed.

(** C2. [_create_feature] never raises.  With a current dataset set, a
    feature whose WKT is empty, or parses to an empty geometry, comes back
    with its attributes and no geometry, and the processor is left as it
    was.  When the body of the [try] raises, whether in attribute extraction
    (no current dataset), in the WKT parser or in the transform,
    [_create_feature] logs the error with the property map and returns None.
    The list comprehension of [run_export] keeps, in order, exactly the
    features that were built, and goes on after a None. *)
Theorem create_feature_never_raises
    (st : State) (fd : Feature.t) (tr : option (Obj Transform)) :
  (exists r st', _create_feature fd tr st = (Ret r, st')) /\
  (forall ds,
     current_dataset st = Some ds ->
     Feature.wkt fd = "" \/
     (exists g, fromWkt (Feature.wkt fd) = Ret g /\ isEmpty g = true) ->
     exists attrs,
       _extract_attributes (Feature.properties fd) st = (Ret attrs, st) /\
       _create_feature fd tr st
       = (Ret (Some (mkQgsFeature (fields st) attrs None)), st)) /\
  (forall e st1,
     create_feature_body fd tr st = (Raise e, st1) ->
     _create_feature fd tr st
     = (Ret None, set_proc (emit_log (create_feature_error fd e) (proc st)) st)) /\
  (current_dataset st = None ->
   exists e, create_feature_body fd tr st = (Raise e, st)) /\
  (forall ds e,
     current_dataset st = Some ds -> Feature.wkt fd <> "" ->
     fromWkt (Feature.wkt fd) = Raise e ->
     create_feature_body fd tr st = (Raise e, st)) /\
  (forall ds g t e,
     current_dataset st = Some ds -> Feature.wkt fd <> "" ->
     fromWkt (Feature.wkt fd) = Ret g -> isEmpty g = false ->
     tr = Some t -> geometry_transform g (val t) = Raise e ->
     create_feature_body fd tr st = (Raise e, st)) /\
  (forall feats,
     (build_features feats tr st).1
     = Ret (omap (fun fd => built (_create_feature fd tr st).1) feats)).
Proof.
  split; [apply create_feature_total |].
  split.
  { intros ds Hcur Hwkt. eexists. split; [by apply extract_attributes_eq |].
    unfold _create_feature, try_except, create_feature_body. unfold bind at 1.
    unfold gets at 1. unfold bind at 1.
    rewrite (extract_attributes_eq st ds _ Hcur).
    destruct Hwkt as [-> | (g & Hg & He)].
    - reflexivity.
    - destruct (Feature.wkt fd =? ""); [reflexivity |].
      run_monad. rewrite Hg. simpl. by rewrite He. }
  split; [intros e st1 E; by eapply create_feature_caught |].
  split.
  { intros Hcur. destruct (extract_attributes_unset st (Feature.properties fd) Hcur)
      as (e & E & _).
    exists e. unfold create_feature_body. unfold bind at 1. unfold gets at 1.
    unfold bind at 1. by rewrite E. }
  split.
  { intros ds e Hcur Hwkt Hraise. apply String.eqb_neq in Hwkt.
    unfold create_feature_body. unfold bind at 1. unfold gets at 1.
    unfold bind at 1. rewrite (extract_attributes_eq st ds _ Hcur).
    rewrite Hwkt. run_monad. by rewrite Hraise. }
  split.
  { intros ds g t e Hcur Hwkt Hg He -> Hraise. apply String.eqb_neq in Hwkt.
    unfold create_feature_body. unfold bind at 1. unfold gets at 1.
    unfold bind at 1. rewrite (extract_attributes_eq st ds _ Hcur).
    rewrite Hwkt. run_monad. rewrite Hg. simpl. rewrite He. simpl.
    by rewrite Hraise. }
  intros feats. by apply build_features_keeps_built.
Qed.

(** ** Write options *)

Lemma prepare_save_options_eq (st : State) (ds : Dataset.t) :
  current_dataset st = Some ds ->
  let p := payload st in
  let out := mkPath (ExportPayload.output_dir p) in
  let container := is_container_driver (ExportPayload.driver p) in
  let target_path := if container then out else joinpath out (Dataset.layer_name ds) in
  _prepare_save_options st
  = (Ret (mkSaveVectorOptions (ExportPayload.driver p) (Dataset.layer_name ds) "UTF-8"
            (if path_exists (world (proc st)) target_path && ExportPayload.overwrite p
             then (if container then CreateOrOverwriteLayer else CreateOrOverwriteFile)
             else CreateOrOverwriteFile)
            (if negb (upper (ExportPayload.driver p) =? "OPENFILEGDB")
             then ["SPATIAL_INDEX=YES"] else []),
          as_posix target_path,
          if container
          then as_posix out +:+ "|layername=" +:+ Dataset.layer_name ds
          else as_posix target_path),
     st).
Proof.
  intros Hcur. unfold _prepare_save_options, get_current_dataset. run_monad.
  rewrite Hcur. simpl.
  by destruct (is_container_driver (ExportPayload.driver (payload st))).
Qed.

Lemma prepare_save_options_unset (st : State) :
  current_dataset st = None ->
  exists e, _prepare_save_options st = (Raise e, st) /\ exn_class e = AttributeError.
Proof.
  intros Hcur. unfold _prepare_save_options, get_current_dataset. run_monad.
  rewrite Hcur. simpl. eauto.
Qed.


(** ** Writing *)


Lemma write_features_eq (st : State) (feats : list (QgsFeature Geometry))
    (dest : Obj Crs) (opts : SaveVectorOptions) (target display : string) :
  _prepare_save_options st = (Ret (opts, target, display), st) ->
  let created := opened_writer st dest opts target in
  let added := addFeatures created.2 created.1 feats in
  let failed := negb (WriterError_eqb (hasError created.1) NoError) in
  exists st',
    _write_features feats dest st
    = (Ret (if failed then false
            else match feats with [] => true | _ :: _ => added.1 end), st') /\
    trace (proc st')
    = trace (proc st)
      ++ [WriterCreate target (fields st) QgsWkbTypes.Polygon dest opts]
      ++ (if failed then []
          else match feats with [] => [] | _ :: _ => [AddFeatures target feats] end)
      ++ [WriterRelease target] /\
    printed st' = printed st /\
    current_dataset st' = current_dataset st.
Proof.
  intros Hprep created added failed.
  unfold _write_features. unfold bind at 1. rewrite Hprep.
  unfold writer_create, writer_addFeatures, writer_del, get_current_dataset.
  run_monad. fold (opened_writer st dest opts target). fold created.
  fold failed. destruct failed.
  - eexists. split; [reflexivity |]. simpl. rewrite <- !app_assoc. by repeat split.
  - destruct feats as [|f feats]; simpl.
    + eexists. split; [reflexivity |]. simpl. rewrite <- !app_assoc. by repeat split.
    + fold added. destruct (added.1); simpl.
      * eexists. split; [reflexivity |]. simpl. rewrite <- !app_assoc. by repeat split.
      * destruct (current_dataset st) as [ds|] eqn:Hcur.
        -- eexists. split; [reflexivity |]. simpl. rewrite <- !app_assoc.
           by repeat split.
        -- destruct (prepare_save_options_unset st Hcur) as (e & E & _). congruence.
Qed.

Lemma export_dataset_split (ds : Dataset.t) (dest : Obj Crs) (st : State) :
  export_dataset ds dest st
  = (qgs_features <- features_to_write ds dest ;;
     success <- _write_features qgs_features dest ;;
     logging INFO "文件 %s 处理耗时 %.2f ms" [AStr (Dataset.source_path ds); AElapsed] ;;
     print (result_record ds success)) st.
Proof.
  unfold export_dataset, features_to_write, bind, logging, modify.
  destruct (_build_crs _ _) as [[src|e] st1]; [| done].
  destruct (_build_transform _ _ _) as [[tr|e] st2]; [| done].
  by destruct (build_features _ _ _) as [[fs|e] st3].
Qed.

Lemma features_to_write_keeps_dataset (ds : Dataset.t) (dest : Obj Crs) :
  preserves (unchanged current_dataset) (features_to_write ds dest).
Proof. unfold features_to_write. preserves_tac; reflexivity. Qed.



(** ** The export loop *)

(** *** Every method is steady *)

Lemma export_iteration_steady (ds : Dataset.t) (dest : Obj Crs) :
  preserves steady (export_iteration ds dest).
Proof. unfold export_iteration. preserves_tac; steady_leaf. Qed.

Lemma run_export_steady : preserves steady run_export.
Proof.
  unfold run_export. preserves_with ltac:(apply export_iteration_steady); steady_leaf.
Qed.

(** *** What is printed *)








Lemma run_export_unfold (st : State) :
  run_export st
  = match run_export_prologue st with
    | (Ret dest, st0) =>
        for_each (ExportPayload.datasets (payload st))
                 (fun ds => export_iteration ds dest) st0
    | (Raise e, st0) => (Raise e, st0)
    end.
Proof.
  unfold run_export, run_export_prologue, bind, gets, logging, modify.
  by destruct (_build_crs _ _) as [[?|?] ?].
Qed.



(** C9. Every writer is created for the geometry type Polygon: with a
    current dataset set, [_write_features] creates exactly one writer, for
    polygons, whatever features it is given; and whatever [_write_features]
    or a whole [run_export] adds to the trace, every creation of a writer in
    it is for polygons. *)
Theorem every_layer_is_polygon (st : State) :
  (forall ds feats dest,
     current_dataset st = Some ds ->
     exists b st' opts target rest,
       _write_features feats dest st = (Ret b, st') /\
       trace (proc st')
       = trace (proc st)
         ++ WriterCreate target (fields st) QgsWkbTypes.Polygon dest opts :: rest /\
       Forall (fun e => match e with WriterCreate _ _ _ _ _ => False | _ => True end)
              rest) /\
  (forall feats dest r st',
     _write_features feats dest st = (r, st') ->
     exists new,
       trace (proc st') = trace (proc st) ++ new /\ Forall polygon_writer new) /\
  (forall r st',
     run_export st = (r, st') ->
     exists new,
       trace (proc st') = trace (proc st) ++ new /\ Forall polygon_writer new).
Proof.
  split; [| split].
  - intros ds feats dest Hcur.
    destruct (write_features_eq st feats dest _ _ _ (prepare_save_options_eq st ds Hcur))
      as (st' & E & Htr & _).
    eexists _, st', _, _, _. split; [exact E |]. split; [exact Htr |].
    apply Forall_app. split; [| by repeat constructor].
    destruct (negb _); [constructor |].
    destruct feats; by repeat constructor.
  - intros feats dest r st' E.
    assert (H : preserves steady (_write_features feats dest))
      by (preserves_tac; steady_leaf).
    by destruct (H st r st' E) as (_ & _ & _ & Hnew).
  - intros r st' E. by destruct (run_export_steady st r st' E) as (_ & _ & _ & Hnew).
Qed.

(** ** The merge flag *)

Lemma ignores_merge_ret {A} (a : A) : ignores_merge (ret a).
Proof. by intros b st. Qed.

Lemma ignores_merge_raise {A} (e : PyExn) : ignores_merge (@raise _ A e).
Proof. by intros b st. Qed.

Lemma ignores_merge_lift {A} (o : outcome A) : ignores_merge (lift o).
Proof. by intros b st. Qed.

Lemma ignores_merge_gets {A} (f : State -> A) :
  (forall b st, f (with_merge b st) = f st) -> ignores_merge (gets f).
Proof. intros H b st. unfold gets. simpl. by rewrite H. Qed.

Lemma ignores_merge_modify (f : State -> State) :
  (forall b st, f (with_merge b st) = with_merge b (f st)) ->
  ignores_merge (modify f).
Proof. intros H b st. unfold modify. simpl. by rewrite H. Qed.

Lemma ignores_merge_bind {A B} (c : M A) (k : A -> M B) :
  ignores_merge c -> (forall a, ignores_merge (k a)) -> ignores_merge (bind c k).
Proof.
  intros Hc Hk b st. unfold bind. rewrite Hc.
  destruct (c st) as [[a|e] st1]; simpl; [apply Hk | done].
Qed.

Lemma ignores_merge_try_except {A} (body : M A) (handler : PyExn -> M A) :
  ignores_merge body -> (forall e, ignores_merge (handler e)) ->
  ignores_merge (try_except body handler).
Proof.
  intros Hb Hh b st. unfold try_except. rewrite Hb.
  destruct (body st) as [[a|e] st1]; simpl; [done | apply Hh].
Qed.

Lemma ignores_merge_try_finally {A} (body : M A) (final : State -> State) :
  ignores_merge body ->
  (forall b st, final (with_merge b st) = with_merge b (final st)) ->
  ignores_merge (try_finally body final).
Proof.
  intros Hb Hf b st. unfold try_finally. rewrite Hb.
  destruct (body st) as [r st1]; simpl. by rewrite Hf.
Qed.

Lemma ignores_merge_for_each {A} (xs : list A) (body : A -> M unit) :
  (forall x, ignores_merge (body x)) -> ignores_merge (for_each xs body).
Proof.
  intros Hb. induction xs as [|x xs IH]; simpl.
  - apply ignores_merge_ret.
  - apply ignores_merge_bind; auto.
Qed.

Lemma ignores_merge_build_features (feats : list Feature.t)
    (tr : option (Obj Transform)) :
  (forall fd, ignores_merge (_create_feature fd tr)) ->
  ignores_merge (build_features feats tr).
Proof.
  intros H. induction feats as [|fd feats IH]; simpl.
  - apply ignores_merge_ret.
  - apply ignores_merge_bind; [apply H | intros ?].
    apply ignores_merge_bind; [apply IH | intros ?]. apply ignores_merge_ret.
Qed.

(** The one method that reads the payload outside [run_export]: it reads
    the driver, the output directory and the overwrite flag. *)
Lemma prepare_save_options_ignores_merge : ignores_merge _prepare_save_options.
Proof.
  intros b st. unfold _prepare_save_options, get_current_dataset. run_monad.
  destruct (current_dataset st); simpl; [| done].
  by destruct (is_container_driver _).
Qed.

Ltac ignores_merge_with known :=
  repeat first
    [ known
    | apply ignores_merge_ret
    | apply ignores_merge_raise
    | apply ignores_merge_lift
    | apply prepare_save_options_ignores_merge
    | apply ignores_merge_gets; intros ? ?
    | apply ignores_merge_modify; intros ? ?
    | apply ignores_merge_bind; [| intros ?]
    | apply ignores_merge_try_except; [| intros ?]
    | apply ignores_merge_try_finally; [| intros ? ?]
    | apply ignores_merge_for_each; intros ?
    | apply ignores_merge_build_features; intros ?
    | match goal with
      | |- ignores_merge (if ?b then _ else _) => destruct b
      | |- ignores_merge (match ?x with _ => _ end) => destruct x
      | |- ignores_merge (let '(_, _) := ?x in _) => destruct x
      | |- ignores_merge (_build_crs _) => unfold _build_crs
      | |- ignores_merge (let _ := _ in _) => cbv zeta
      end ].

Lemma build_crs_ignores_merge (s : string) : ignores_merge (_build_crs s).
Proof. ignores_merge_with fail; reflexivity. Qed.

Lemma export_iteration_ignores_merge (ds : Dataset.t) (dest : Obj Crs) :
  ignores_merge (export_iteration ds dest).
Proof. unfold export_iteration. ignores_merge_with fail; reflexivity. Qed.

Lemma run_export_ignores_merge : ignores_merge run_export.
Proof.
  intros b st. unfold run_export. unfold bind at 1 3. unfold gets. simpl.
  set (k := fun _ : unit => _).
  assert (Hk : ignores_merge (bind (logging INFO "开始处理 %d 个文件..."
      [AInt (Z.of_nat (length (ExportPayload.datasets (payload st))))]) k)).
  { subst k. ignores_merge_with ltac:(apply export_iteration_ignores_merge);
      reflexivity. }
  apply Hk.
Qed.

Lemma init_ignores_merge (payload : ExportPayload.t) (b : bool) (p0 : Process) :
  __init__ (ExportPayload.with_merge b payload) p0
  = match __init__ payload p0 with
    | (Ret st, p1) => (Ret (with_merge b st), p1)
    | (Raise e, p1) => (Raise e, p1)
    end.
Proof.
  unfold __init__.
  set (self := mkState payload _build_fields ∅ ∅ None None p0).
  change (mkState (ExportPayload.with_merge b payload) _build_fields ∅ ∅ None None p0)
    with (with_merge b self).
  rewrite (build_crs_ignores_merge "EPSG:4526" b self).
  by destruct (_build_crs "EPSG:4526" self) as [[c|e] st1].
Qed.

(** C10. A run on a payload and a run on the same payload with another
    value of the merge flag, from the same process and world, end the same:
    same outcome, same printed records, same log, same library calls, same
    world. *)
Theorem merge_flag_is_never_read (payload : ExportPayload.t) (b : bool) (p0 : Process) :
  run_payload (ExportPayload.with_merge b payload) p0 = run_payload payload p0.
Proof.
  unfold run_payload. rewrite init_ignores_merge.
  destruct (__init__ payload p0) as [[st|e] p1]; [| done].
  rewrite (run_export_ignores_merge b st).
  by destruct (run_export st) as [r st'].
Qed.

(** ** The process *)





(** * Further properties *)

(** ** The shape [from_dict] accepts *)

Lemma filter_nil_Forall {A} (P : A -> Prop) `{!forall x, Decision (P x)} (l : list A) :
  filter P l = [] <-> Forall (fun x => ~ P x) l.
Proof.
  induction l as [|x l IH]; simpl.
  - split; [constructor | done].
  - rewrite filter_cons. destruct (decide (P x)) as [HP | HP].
    + split; [done |]. intros Hx. by inversion Hx.
    + rewrite IH. split; [by constructor | intros Hx; by inversion Hx].
Qed.

Lemma bind_kwargs_ret (cls : string) (params : list string) (kwargs : list (string * json)) :
  bind_kwargs cls params kwargs = Ret tt <->
  (forall k, k ∈ dict_keys kwargs -> k ∈ params) /\
  (forall k, k ∈ params -> is_Some (dict_get k kwargs)).
Proof.
  unfold bind_kwargs.
  destruct (filter (fun k => k ∉ params) (dict_keys kwargs)) as [|k0 l0] eqn:E1.
  - apply filter_nil_Forall in E1. rewrite Forall_forall in E1.
    assert (H1 : forall k, k ∈ dict_keys kwargs -> k ∈ params).
    { intros k Hk. specialize (E1 k Hk). by destruct (decide (k ∈ params)). }
    destruct (filter (fun k => dict_get k kwargs = None) params) as [|k1 l1] eqn:E2.
    + apply filter_nil_Forall in E2. rewrite Forall_forall in E2.
      split; [| done]. intros _. split; [done |].
      intros k Hk. specialize (E2 k Hk). by destruct (dict_get k kwargs).
    + split; [done |]. intros [_ H2].
      assert (Hk1 : k1 ∈ filter (fun k => dict_get k kwargs = None) params)
        by (rewrite E2; left).
      apply list_elem_of_filter in Hk1 as [Hnone Hin].
      destruct (H2 k1 Hin) as [v Hv]. congruence.
  - split; [done |]. intros [H1 _].
    assert (Hk0 : k0 ∈ filter (fun k => k ∉ params) (dict_keys kwargs))
      by (rewrite E1; left).
    apply list_elem_of_filter in Hk0 as [Hnot Hin]. by apply H1 in Hin.
Qed.

Lemma dict_get_filter_ne (k0 k : string) (items : list (string * json)) :
  k <> k0 ->
  dict_get k (filter (fun kv => kv.1 ≠ k0) items) = dict_get k items.
Proof.
  intros Hne. induction items as [|[k' v] items IH]; [done |].
  rewrite filter_cons. simpl. destruct (decide (k' ≠ k0)) as [H | H]; simpl.
  - by rewrite IH.
  - destruct (String.eqb_spec k' k) as [-> | Hk]; [| done].
    exfalso. apply H. exact Hne.
Qed.

Lemma dict_keys_filter_ne (k0 k : string) (items : list (string * json)) :
  k ∈ dict_keys (filter (fun kv => kv.1 ≠ k0) items) <->
  k ∈ dict_keys items /\ k <> k0.
Proof.
  unfold dict_keys. rewrite !list_elem_of_fmap. split.
  - intros ([k' v] & -> & Hin). apply list_elem_of_filter in Hin as [Hne Hin].
    split; [| done]. by exists (k', v).
  - intros [([k' v] & -> & Hin) Hne]. exists (k', v). split; [done |].
    by apply list_elem_of_filter.
Qed.

(** The keyword arguments left once the key [k0] is taken out bind to
    [params] exactly when the dict is keyed by [params], with [k0] optional. *)
Lemma bind_kwargs_keyed (cls k0 : string) (params : list string) (items : list (string * json)) :
  k0 ∉ params ->
  bind_kwargs cls params (filter (fun kv => kv.1 ≠ k0) items) = Ret tt <->
  keyed params [k0] (JObj items).
Proof.
  intros Hk0. rewrite bind_kwargs_ret. simpl. split.
  - intros [H1 H2]. split.
    + intros k Hk. destruct (decide (k = k0)) as [-> | Hne]; [by left |].
      right. apply H1. by apply dict_keys_filter_ne.
    + intros k Hk. specialize (H2 k Hk). rewrite dict_get_filter_ne in H2; [done |].
      intros ->. done.
  - intros [H1 H2]. split.
    + intros k Hk. apply dict_keys_filter_ne in Hk as [Hk Hne].
      specialize (H1 k Hk). by inversion H1; subst.
    + intros k Hk. rewrite dict_get_filter_ne; [by apply H2 |]. intros ->. done.
Qed.

Lemma make_feature_shaped (f : json) :
  (exists r, make_feature f = Ret r) <-> feature_shaped f.
Proof.
  unfold make_feature, feature_shaped.
  destruct f as [| | | | |?|kwargs]; simpl; try (split; [by intros [? ?] | done]).
  pose proof (bind_kwargs_ret "Feature" ["properties"; "wkt"] kwargs) as H.
  destruct (bind_kwargs "Feature" ["properties"; "wkt"] kwargs) as [[]|e].
  - split; [intros _; by apply H | eauto].
  - split; [by intros [? ?] |]. intros Hk. by apply H in Hk.
Qed.

Lemma comprehension_ret {A B} (f : A -> outcome B) (xs : list A) :
  (exists ys, comprehension f xs = Ret ys) <->
  Forall (fun x => exists y, f x = Ret y) xs.
Proof.
  induction xs as [|x xs IH]; simpl.
  - split; [constructor | eauto].
  - destruct (f x) as [y|e] eqn:Ex.
    + destruct (comprehension f xs) as [ys|e] eqn:Exs.
      * split; [| eauto]. intros _. constructor; [eauto | apply IH; eauto].
      * split; [by intros [? ?] |]. intros H. inversion H as [|?? _ Hxs]; subst.
        apply IH in Hxs as [? ?]. done.
    + split; [by intros [? ?] |]. intros H. inversion H as [|?? [? ?] _]; subst.
      congruence.
Qed.

Lemma make_dataset_shaped (ds : json) :
  (exists r, make_dataset ds = Ret r) <-> dataset_shaped ds.
Proof.
  unfold make_dataset, dataset_shaped, listed.
  destruct ds as [| | | | |?|items]; simpl;
    try (split; [by intros [? ?] | by intros [[] _]]).
  destruct (py_iter (default (JArr []) (dict_get "features" items))) as [fs|e].
  2:{ split; [by intros [? ?] | by intros [_ (? & ? & _)]]. }
  pose proof (comprehension_ret make_feature fs) as Hfs.
  pose proof (bind_kwargs_keyed "Dataset" "features"
                ["hash"; "layer_name"; "source_crs"; "source_path"; "total_features"]
                items ltac:(by eapply (bool_decide_unpack _); vm_compute)) as Hkw.
  simpl in Hkw.
  destruct (comprehension make_feature fs) as [features|e].
  - assert (Hall : Forall feature_shaped fs).
    { destruct Hfs as [Hfs _]. specialize (Hfs (ex_intro _ features eq_refl)).
      eapply Forall_impl; [exact Hfs |]. intros f Hf. by apply make_feature_shaped. }
    destruct (bind_kwargs "Dataset" _ _) as [[]|e].
    + split; [| eauto]. intros _. split; [by apply Hkw | eauto].
    + split; [by intros [? ?] |]. intros [Hk _]. by apply Hkw in Hk.
  - split; [by intros [? ?] |]. intros [_ (fs' & Hfs' & Hall)].
    injection Hfs' as <-. destruct Hfs as [_ Hfs].
    destruct Hfs as [ys Hys]; [| done].
    eapply Forall_impl; [exact Hall |]. intros f Hf. by apply make_feature_shaped.
Qed.

(** X1. [from_dict] returns exactly on the documents of the expected shape:
    a dict that has the keys driver, merge, output_dir, overwrite and
    target_crs, and no other key but datasets, and whose datasets (the empty
    list when the key is absent) are dicts that have the keys hash,
    layer_name, source_crs, source_path and total_features, and no other key
    but features, each feature (none when the key is absent) a dict with
    exactly the keys properties and wkt.  On every other document it
    raises.  When it returns, the payload has one dataset per item, in the
    order of the document. *)
Theorem from_dict_accepts_the_shape (data : json) :
  ((exists raw, from_dict data = Ret raw) <-> payload_shaped data) /\
  (forall raw,
     from_dict data = Ret raw ->
     exists dss,
       listed "datasets" data = Ret dss /\
       comprehension make_dataset dss = Ret (Raw.datasets raw)).
Proof.
  unfold from_dict, payload_shaped, listed.
  destruct data as [| | | | |?|items]; simpl;
    try (split; [split; [by intros [? ?] | by intros [[] _]] | done]).
  destruct (py_iter (default (JArr []) (dict_get "datasets" items))) as [dss|e].
  2:{ split; [| done]. split; [by intros [? ?] | by intros [_ (? & ? & _)]]. }
  pose proof (comprehension_ret make_dataset dss) as Hdss.
  pose proof (bind_kwargs_keyed "ExportPayload" "datasets"
                ["driver"; "merge"; "output_dir"; "overwrite"; "target_crs"]
                items ltac:(by eapply (bool_decide_unpack _); vm_compute)) as Hkw.
  simpl in Hkw.
  destruct (comprehension make_dataset dss) as [datasets|e] eqn:Ec.
  - assert (Hall : Forall dataset_shaped dss).
    { destruct Hdss as [Hdss _]. specialize (Hdss (ex_intro _ datasets eq_refl)).
      eapply Forall_impl; [exact Hdss |]. intros d Hd. by apply make_dataset_shaped. }
    destruct (bind_kwargs "ExportPayload" _ _) as [[]|e].
    + split.
      * split; [| eauto]. intros _. split; [by apply Hkw | eauto].
      * intros raw [= <-]. exists dss. by split.
    + split; [| done]. split; [by intros [? ?] |]. intros [Hk _]. by apply Hkw in Hk.
  - split; [| done]. split; [by intros [? ?] |]. intros [_ (dss' & Hdss' & Hall)].
    injection Hdss' as <-. destruct Hdss as [_ Hdss].
    destruct Hdss as [ys Hys]; [| done].
    eapply Forall_impl; [exact Hall |]. intros d Hd. by apply make_dataset_shaped.
Qed.

(** X2. An absent key datasets is an empty list of datasets, and an absent
    key features an empty list of features: [from_dict], and the making of a
    dataset, do on a dict without the key what they do on the same dict with
    the key bound to the empty list. *)
Theorem from_dict_absent_list_is_empty (items : list (string * json)) :
  (dict_get "datasets" items = None ->
   from_dict (JObj items) = from_dict (JObj (("datasets", JArr []) :: items))) /\
  (dict_get "features" items = None ->
   make_dataset (JObj items) = make_dataset (JObj (("features", JArr []) :: items))).
Proof.
  split; intros Hnone.
  - unfold from_dict. simpl. rewrite Hnone. simpl. by rewrite filter_cons.
  - unfold make_dataset. simpl. rewrite Hnone. simpl. by rewrite filter_cons.
Qed.

(** X3. Round trip: the document of a payload, with the dataclass fields as
    keys, is turned by [from_dict] into that payload, every value of a
    declared type, whatever the payload. *)
Theorem from_dict_round_trip (pl : ExportPayload.t) :
  exists raw, from_dict (payload_json pl) = Ret raw /\ typed_payload raw = Some pl.
Proof. apply from_dict_payload_json. Qed.

(** ** What exit code 1 means *)




(** ** Valid CRS only *)

#[local] Instance keeps_crs_valid_preorder : PreOrder keeps_crs_valid.
Proof.
  split.
  - intros st Hv. split; [done |]. exists []. by rewrite app_nil_r.
  - intros st1 st2 st3 H12 H23 Hv.
    destruct (H12 Hv) as (Hv2 & new1 & Ht1 & Hn1).
    destruct (H23 Hv2) as (Hv3 & new2 & Ht2 & Hn2).
    split; [done |]. exists (new1 ++ new2). rewrite Ht2, Ht1, app_assoc.
    split; [done | by apply Forall_app].
Qed.

Lemma build_crs_valid_result (s : string) (st st' : State) (r : outcome (Obj Crs)) :
  crs_cache_valid st ->
  _build_crs s st = (r, st') ->
  crs_cache_valid st' /\
  trace (proc st') = trace (proc st) ++
    match crs_cache st !! s with
    | None => if s =? "" then [] else
                [NewCrs (mkObj (next_oid (proc st)) (QgsCoordinateReferenceSystem s)) s]
    | Some _ => []
    end /\
  forall c, r = Ret c -> isValid (val c) = true.
Proof.
  intros Hst E. pose proof Hst as [Hd Hc].
  destruct (decide (s = "")) as [-> | Hs].
  { unfold _build_crs in E. run_monad.
    assert (Hnone : crs_cache st !! "" = None).
    { destruct (crs_cache st !! "") as [c|] eqn:Hc0; [| done].
      by destruct (Hc _ _ Hc0) as [? _]. }
    rewrite Hnone. simpl.
    destruct (default_crs st) as [d|] eqn:Hdef; injection E as <- <-.
    - split; [exact Hst |]. split; [by rewrite app_nil_r |].
      intros c [= <-]. by apply Hd.
    - split; [exact Hst |]. split; [by rewrite app_nil_r | done]. }
  pose proof Hs as Hs'. apply String.eqb_neq in Hs'. rewrite Hs'.
  destruct (crs_cache st !! s) as [c0|] eqn:Hc0.
  { rewrite (build_crs_cached st s c0 Hs Hc0) in E. injection E as <- <-.
    split; [exact Hst |]. split; [by rewrite app_nil_r |].
    intros c [= <-]. by destruct (Hc _ _ Hc0) as (_ & _ & ?). }
  unfold _build_crs in E. rewrite Hs' in E. run_monad. rewrite Hc0 in E. simpl in E.
  destruct (isValid (QgsCoordinateReferenceSystem s)) eqn:Hv; simpl in E.
  - injection E as <- <-. split; [| split; [done |]].
    + split; [exact Hd |]. intros s1 c1. simpl.
      destruct (decide (s = s1)) as [<- | Hne].
      * rewrite lookup_insert_eq. by intros [= <-].
      * rewrite lookup_insert_ne by done. apply Hc.
    + by intros c [= <-].
  - destruct (default_crs st) as [d|] eqn:Hdef; injection E as <- <-.
    + split; [exact Hst |]. split; [done |]. intros c [= <-]. by apply Hd.
    + split; [exact Hst |]. split; [done | done].
Qed.

Lemma build_crs_keeps_crs_valid (s : string) :
  preserves keeps_crs_valid (_build_crs s).
Proof.
  intros st r st' E Hv.
  destruct (build_crs_valid_result s st st' r Hv E) as (Hv' & Ht & _).
  split; [done |]. eexists. split; [exact Ht |].
  destruct (crs_cache st !! s); [constructor |].
  destruct (s =? ""); by repeat constructor.
Qed.

Ltac crs_valid_leaf :=
  intros ?; split; [assumption |];
  first [ by (exists []; rewrite app_nil_r)
        | by (eexists [_]; split; [reflexivity | by repeat constructor]) ].

Lemma export_iteration_keeps_crs_valid (ds : Dataset.t) (dest : Obj Crs) :
  isValid (val dest) = true ->
  preserves keeps_crs_valid (export_iteration ds dest).
Proof.
  intros Hdest. unfold export_iteration.
  preserves_with ltac:(apply build_crs_keeps_crs_valid); crs_valid_leaf.
Qed.

Lemma init_crs_cache_valid (pl : ExportPayload.t) (p p1 : Process) (st : State) :
  __init__ pl p = (Ret st, p1) -> crs_cache_valid st.
Proof.
  unfold __init__.
  set (self := mkState pl _build_fields ∅ ∅ None None p).
  assert (Hself : crs_cache_valid self).
  { split; [done |]. intros s c. simpl. by rewrite lookup_empty. }
  destruct (_build_crs "EPSG:4526" self) as [[c|e] st1] eqn:E; [| done].
  destruct (build_crs_valid_result _ _ _ _ Hself E) as ([_ Hc] & _ & Hr).
  intros [= <- _]. split; simpl.
  - intros d [= <-]. by apply Hr.
  - exact Hc.
Qed.

(** X5. The processor only ever holds and hands out valid CRS: [__init__]
    leaves a valid default CRS and a cache of valid CRS, each cached under
    the identifier it was built from; from then on every [_build_crs] keeps
    it so and returns a valid CRS, whatever the identifier; and [run_export]
    keeps it so and creates every writer with a valid CRS. *)
Theorem only_valid_crs :
  (forall pl p p1 st, __init__ pl p = (Ret st, p1) -> crs_cache_valid st) /\
  forall st,
    crs_cache_valid st ->
    (forall s r st',
       _build_crs s st = (r, st') ->
       crs_cache_valid st' /\ forall c, r = Ret c -> isValid (val c) = true) /\
    (forall r st',
       run_export st = (r, st') ->
       crs_cache_valid st' /\
       exists new,
         trace (proc st') = trace (proc st) ++ new /\ Forall valid_writer new).
Proof.
  split; [exact init_crs_cache_valid |].
  intros st Hv. split.
  - intros s r st' E.
    destruct (build_crs_valid_result s st st' r Hv E) as (Hv' & _ & Hr). by split.
  - intros r st'. rewrite run_export_unfold.
    unfold run_export_prologue, bind, gets, logging, modify.
    set (st1 := set_proc _ st).
    assert (Hv1 : crs_cache_valid st1) by exact Hv.
    destruct (_build_crs (ExportPayload.target_crs (payload st)) st1)
      as [[dest|e] st0] eqn:E0.
    + destruct (build_crs_valid_result _ _ _ _ Hv1 E0) as (_ & _ & Hdest).
      pose proof (build_crs_keeps_crs_valid _ _ _ _ E0 Hv1) as (Hv0 & new0 & Ht0 & Hn0).
      intros E.
      assert (H : preserves keeps_crs_valid
                    (for_each (ExportPayload.datasets (payload st))
                       (fun ds => export_iteration ds dest))).
      { apply preserves_for_each; [apply _ |]. intros ds.
        apply export_iteration_keeps_crs_valid. by apply Hdest. }
      destruct (H st0 r st' E Hv0) as (Hv' & new & Ht & Hn).
      split; [done |]. exists (new0 ++ new). rewrite Ht, Ht0, app_assoc.
      split; [done | by apply Forall_app].
    + intros [= <- <-].
      exact (build_crs_keeps_crs_valid _ _ _ _ E0 Hv1).
Qed.

(** ** What attribute extraction reads *)

Lemma scan_source_keys_agree (keys : list string) (props props' : dict json) (v0 : json) :
  Forall (fun k => dict_get k props = dict_get k props') keys ->
  scan_source_keys keys props v0 = scan_source_keys keys props' v0.
Proof.
  induction 1 as [|k keys Hk _ IH]; simpl; [done |].
  unfold dict_mem. rewrite Hk. by destruct (dict_get k props').
Qed.

(** X6. Attribute extraction reads the property map at the candidate keys
    of [FIELD_MAPPING] only, and not at those of WJLJ: two property maps
    that agree on these keys give the same attributes, or the same error,
    whatever else they hold. *)
Theorem extract_attributes_reads_mapped_keys
    (st : State) (props props' : dict json) :
  Forall (fun k => dict_get k props = dict_get k props') read_keys ->
  _extract_attributes props st = _extract_attributes props' st.
Proof.
  intros Hagree.
  destruct (current_dataset st) as [ds|] eqn:Hcur.
  - rewrite !(extract_attributes_eq st ds) by done. do 2 f_equal.
    apply map_ext_in. intros fd Hfd. unfold field_value.
    destruct (FieldDef.name fd =? "WJLJ") eqn:Hw; [done |].
    apply scan_source_keys_agree. apply Forall_forall. intros k Hk.
    rewrite Forall_forall in Hagree. apply Hagree.
    unfold read_keys. apply list_elem_of_bind. exists fd.
    rewrite Hw. split; [done |]. by apply list_elem_of_In.
  - unfold _extract_attributes, bind, gets. by rewrite Hcur.
Qed.

(** ** A dataset that fails touches no file *)

#[local] Instance store_untouched_preorder : PreOrder store_untouched.
Proof.
  split.
  - intros st. split; [done |]. exists []. by rewrite app_nil_r.
  - intros st1 st2 st3 (Hw & new1 & Ht1 & Hn1) (Hw' & new2 & Ht2 & Hn2).
    split; [congruence |]. exists (new1 ++ new2). rewrite Ht2, Ht1, app_assoc.
    split; [done | by apply Forall_app].
Qed.

Ltac store_leaf :=
  split; [reflexivity |];
  first [ by (exists []; rewrite app_nil_r)
        | by (eexists [_]; split; [reflexivity | by repeat constructor]) ].

Lemma features_to_write_store_untouched (ds : Dataset.t) (dest : Obj Crs) :
  preserves store_untouched (features_to_write ds dest).
Proof. unfold features_to_write. preserves_tac; store_leaf. Qed.




(** ** The current dataset *)

(** X8. The current dataset is set for the time of an iteration only:
    whatever happens in the [try] body, the iteration ends with no current
    dataset, and so does [run_export] when it started with none; during the
    [try] body, up to the call of [_write_features], the current dataset is
    the dataset of the iteration. *)
Theorem current_dataset_is_reset (st : State) :
  (forall ds dest r st',
     export_iteration ds dest st = (r, st') -> current_dataset st' = None) /\
  (forall ds dest r st',
     features_to_write ds dest (set_current_dataset (Some ds) st) = (r, st') ->
     current_dataset st' = Some ds) /\
  (forall r st',
     current_dataset st = None -> run_export st = (r, st') ->
     current_dataset st' = None).
Proof.
  split; [| split].
  - intros ds dest r st'. unfold export_iteration, try_finally, bind, modify.
    destruct (try_except _ _ _) as [r1 st1]. by intros [= <- <-].
  - intros ds dest r st' E.
    by rewrite (features_to_write_keeps_dataset ds dest _ _ _ E).
  - intros r st' Hcur. rewrite run_export_unfold.
    destruct (run_export_prologue st) as [[dest|e] st0] eqn:E0.
    + assert (H0 : current_dataset st0 = None).
      { assert (H : preserves (unchanged current_dataset) run_export_prologue)
          by (unfold run_export_prologue; preserves_tac; reflexivity).
        by rewrite (H _ _ _ E0). }
      assert (H : preserves (keeps (fun s => current_dataset s = None))
                    (for_each (ExportPayload.datasets (payload st))
                              (fun ds => export_iteration ds dest))).
      { apply preserves_for_each; [apply _ |]. intros ds s r1 s1 E1 _.
        unfold export_iteration, try_finally, bind, modify in E1.
        destruct (try_except _ _ _) as [r2 s2]. by injection E1 as <- <-. }
      intros E. by apply (H _ _ _ E).
    + assert (H : preserves (unchanged current_dataset) run_export_prologue)
        by (unfold run_export_prologue; preserves_tac; reflexivity).
      intros [= <- <-]. by rewrite (H _ _ _ E0).
Qed.

(** ** The caches only grow *)

#[local] Instance caches_grow_preorder : PreOrder caches_grow.
Proof.
  split.
  - by intros st.
  - intros st1 st2 st3 [Hc Ht] [Hc' Ht']. split; by etrans.
Qed.

Lemma build_crs_caches_grow (s : string) : preserves caches_grow (_build_crs s).
Proof.
  intros st r st' E. split.
  - unfold _build_crs in E. destruct (s =? "") eqn:Hs.
    + assert (H : preserves (unchanged crs_cache)
                    (logging WARNING "收到了空的 CRS 定义，将使用默认 CRS。" [] ;;
                     get_default_crs))
        by (preserves_tac; reflexivity).
      by rewrite (H _ _ _ E).
    + run_monad. destruct (crs_cache st !! s) as [c|] eqn:Hc; simpl in E.
      * by injection E as <- <-.
      * destruct (isValid (QgsCoordinateReferenceSystem s)); simpl in E.
        -- injection E as <- <-. simpl. by apply insert_subseteq.
        -- by destruct (default_crs st); injection E as <- <-.
  - destruct (build_crs_same_transforms s _ _ _ E) as [-> _]. done.
Qed.

Lemma build_transform_caches_grow (src dest : Obj Crs) :
  preserves caches_grow (_build_transform src dest).
Proof.
  intros st r st' E. split.
  - assert (H : preserves (unchanged crs_cache) (_build_transform src dest))
      by (unfold _build_transform; preserves_tac; reflexivity).
    by rewrite (H _ _ _ E).
  - by destruct (build_transform_grows _ _ _ _ _ E).
Qed.

(** X9. Nothing is ever dropped from the two caches or replaced in them:
    after [run_export], every CRS and every transform that was cached is
    still cached, under the same key and as the same object. *)
Theorem caches_only_grow (st st' : State) (r : outcome unit) :
  run_export st = (r, st') ->
  (forall s c, crs_cache st !! s = Some c -> crs_cache st' !! s = Some c) /\
  (forall k t, transform_cache st !! k = Some t -> transform_cache st' !! k = Some t).
Proof.
  intros E.
  assert (H : preserves caches_grow run_export).
  { unfold run_export, export_iteration, export_dataset, _write_features,
      _prepare_save_options, writer_create, writer_addFeatures, writer_del,
      get_current_dataset, logging, print, _create_feature, create_feature_body,
      _extract_attributes.
    preserves_with ltac:(first [ apply build_crs_caches_grow
                               | apply build_transform_caches_grow ]);
      by split. }
  destruct (H _ _ _ E) as [Hc Ht]. split.
  - intros s c Hs. by eapply lookup_weaken.
  - intros k t Hk. by eapply lookup_weaken.
Qed.

(** ** The processor as [__init__] leaves it *)

Lemma build_fields_eq : _build_fields = FieldDef.to_qgs_field <$> FIELD_DEFINITIONS.
Proof. unfold _build_fields. by rewrite fold_left_snoc_map. Qed.

(** X10. [__init__] needs EPSG:4526.  When QGIS knows it as a valid CRS,
    the processor is made: it holds the payload, one field per field
    definition, EPSG:4526 as default CRS and as the only cached CRS, no
    cached transform and no current dataset, and one line is logged.  When
    it does not, [__init__] raises an AttributeError, the default CRS being
    read before it is assigned, after logging the invalid CRS; [main] then
    exits with code 1. *)
Theorem init_needs_epsg_4526 (pl : ExportPayload.t) (p : Process) :
  let c := mkObj (next_oid p) (QgsCoordinateReferenceSystem "EPSG:4526") in
  let made := emit_event (NewCrs c "EPSG:4526") (bump_oid p) in
  (isValid (val c) = true ->
   let st := mkState pl (FieldDef.to_qgs_field <$> FIELD_DEFINITIONS)
                     {["EPSG:4526" := c]} ∅ (Some c) None (emit_log init_done made) in
   __init__ pl p = (Ret st, proc st)) /\
  (isValid (val c) = false ->
   exists e,
     __init__ pl p = (Raise e, emit_log (invalid_crs_error "EPSG:4526") made) /\
     exn_class e = AttributeError /\
     forall input_data,
       (main_except e input_data (emit_log (invalid_crs_error "EPSG:4526") made)).1
       = ExitCode 1).
Proof.
  intros c made. unfold __init__. rewrite build_fields_eq. split; intros Hv.
  - unfold _build_crs. simpl. run_monad. rewrite lookup_empty. simpl.
    fold c. rewrite Hv. simpl. by rewrite insert_empty.
  - unfold _build_crs. simpl. run_monad. rewrite lookup_empty. simpl.
    fold c. rewrite Hv. simpl. eexists. split; [reflexivity |]. split; [done |].
    intros input_data. reflexivity.
Qed.

(** ** The log of [main] *)

#[local] Instance log_grows_preorder : PreOrder log_grows.
Proof.
  split.
  - intros st. exists []. by rewrite app_nil_r.
  - intros st1 st2 st3 [l1 H1] [l2 H2]. exists (l1 ++ l2).
    by rewrite H2, H1, app_assoc.
Qed.

Ltac log_leaf :=
  first [ by (exists []; rewrite app_nil_r) | by (eexists [_]) ].

Lemma run_export_log_grows : preserves log_grows run_export.
Proof.
  unfold run_export, export_iteration, export_dataset, _write_features,
    _prepare_save_options, writer_create, writer_addFeatures, writer_del,
    get_current_dataset, logging, print, _create_feature, create_feature_body,
    _extract_attributes, _build_transform, new_object, record_event.
  preserves_tac; log_leaf.
Qed.

Lemma init_log_grows (pl : ExportPayload.t) (p p1 : Process) (r : outcome State) :
  __init__ pl p = (r, p1) ->
  (exists lines, log p1 = log p ++ lines) /\
  match r with Ret st => proc st = p1 | Raise _ => True end.
Proof.
  unfold __init__.
  set (self := mkState pl _build_fields ∅ ∅ None None p).
  assert (H : preserves log_grows (_build_crs "EPSG:4526"))
    by (unfold logging, get_default_crs, new_object, record_event;
        preserves_tac; log_leaf).
  destruct (_build_crs "EPSG:4526" self) as [[c|e] st1] eqn:E.
  - destruct (H _ _ _ E) as [l Hl]. intros [= <- <-]. simpl. split; [| done].
    exists (l ++ [init_done]). simpl in Hl. by rewrite Hl, app_assoc.
  - destruct (H _ _ _ E) as [l Hl]. intros [= <- <-]. split; [| done].
    by exists l.
Qed.

Lemma main_except_logs (e : PyExn) (input_data : string) (p : Process) :
  exists line, log (main_except e input_data p).2 = log p ++ [line].
Proof. unfold main_except. destruct (exn_class e); by eexists. Qed.

Lemma main_body_log_grows (input_data : string) (p : Process) :
  exists lines, log (main_body input_data p).2 = log p ++ lines.
Proof.
  unfold main_body. destruct (input_data =? ""); [by eexists [_] |].
  destruct (json_loads input_data) as [data|e].
  2:{ destruct (main_except_logs e input_data p) as [l Hl]. by exists [l]. }
  destruct (from_dict data) as [raw|e].
  2:{ destruct (main_except_logs e input_data p) as [l Hl]. by exists [l]. }
  destruct (typed_payload raw) as [pl|]; [| exists []; by rewrite app_nil_r].
  destruct (__init__ pl p) as [[st|e] p1] eqn:Ei.
  - destruct (init_log_grows _ _ _ _ Ei) as [[l1 Hl1] Hp].
    destruct (run_export st) as [[[]|e] st'] eqn:Er;
      destruct (run_export_log_grows _ _ _ Er) as [l2 Hl2]; rewrite Hp in Hl2.
    + exists (l1 ++ l2). simpl. by rewrite Hl2, Hl1, app_assoc.
    + destruct (main_except_logs e input_data (proc st')) as [l Hl].
      exists (l1 ++ l2 ++ [l]). by rewrite Hl, Hl2, Hl1, !app_assoc.
  - destruct (init_log_grows _ _ _ _ Ei) as [[l1 Hl1] _].
    destruct (main_except_logs e input_data p1) as [l Hl].
    exists (l1 ++ [l]). by rewrite Hl, Hl1, app_assoc.
Qed.

(** X11. Once QGIS has started, the log of [main] begins with the start
    line and ends with the cleanup line, however the process exits: after
    the export, on empty input, and on every error handled in between.
    Nothing logged before is lost.  Without a prefix path only the error is
    logged, and nothing at all when QGIS does not start. *)
Theorem main_always_cleans_up (argv : list string) (stdin : string) (p : Process) :
  match argv !! 1%nat with
  | None =>
      exists line, main argv stdin p = (ExitCode 1, emit_log line p)
  | Some prefix_path =>
      match initQgis prefix_path with
      | Raise _ => main argv stdin p = (ExitCode 1, p)
      | Ret _ =>
          exists lines,
            log (main argv stdin p).2
            = log p ++ [mkLog INFO "QGIS 环境初始化成功。" []] ++ lines ++ [qgis_cleaned]
      end
  end.
Proof.
  unfold main. destruct (argv !! 1%nat) as [prefix|]; [| by eexists].
  destruct (initQgis prefix) as [[]|e]; [| done].
  destruct (main_body_log_grows stdin
              (emit_log (mkLog INFO "QGIS 环境初始化成功。" []) p)) as [lines Hl].
  destruct (main_body stdin _) as [code p2]. simpl in *.
  exists lines. by rewrite Hl, <- !app_assoc.
Qed.

(** ** The trace of a run *)

Lemma create_feature_fits (fd : Feature.t) (tr : option (Obj Transform))
    (st st' : State) (f : QgsFeature Geometry) :
  _create_feature fd tr st = (Ret (Some f), st') -> fits_schema (fields st) f.
Proof.
  unfold _create_feature, try_except.
  destruct (create_feature_body fd tr st) as [[o|e] st1] eqn:E; [| by run_monad].
  intros [= -> <-].
  destruct (current_dataset st) as [ds|] eqn:Hcur.
  2:{ destruct (extract_attributes_unset st (Feature.properties fd) Hcur) as (e & Ea & _).
      unfold create_feature_body, bind, gets in E. cbv beta iota zeta in E.
      by rewrite Ea in E. }
  pose proof (extract_attributes_eq st ds (Feature.properties fd) Hcur) as Ea.
  unfold create_feature_body, bind, gets in E. cbv beta iota zeta in E.
  rewrite Ea in E. unfold ret, lift in E. simpl in E.
  assert (Hlen : length (map (field_value ds (Feature.properties fd)) FIELD_DEFINITIONS)
                 = length FIELD_DEFINITIONS) by apply length_map.
  destruct (Feature.wkt fd =? ""); [by injection E as <- <- |].
  destruct (fromWkt (Feature.wkt fd)) as [g|e]; [| done]. simpl in E.
  destruct (isEmpty g); simpl in E; [by injection E as <- <- |].
  destruct tr as [t|]; simpl in E.
  - destruct (geometry_transform g (val t)); [| done]. by injection E as <- <-.
  - by injection E as <- <-.
Qed.

Lemma build_features_fit (feats : list Feature.t) (tr : option (Obj Transform))
    (st st' : State) (fs : list (QgsFeature Geometry)) :
  build_features feats tr st = (Ret fs, st') -> Forall (fits_schema (fields st)) fs.
Proof.
  revert st fs. induction feats as [|fd feats IH]; intros st fs; simpl.
  - intros [= <- <-]. constructor.
  - unfold bind at 1.
    destruct (_create_feature fd tr st) as [[o|e] st1] eqn:E1; [| done].
    unfold bind at 1.
    destruct (build_features feats tr st1) as [[l|e] st2] eqn:E2; [| done].
    intros [= <- <-].
    pose proof (create_feature_context fd tr st _ _ E1) as Hctx.
    unfold unchanged, feature_context in Hctx. injection Hctx as Hf _.
    specialize (IH _ _ E2). rewrite Hf in IH.
    destruct o as [f|]; [| done]. constructor; [| done].
    by apply (create_feature_fits fd tr st st1).
Qed.

Lemma features_to_write_fit (ds : Dataset.t) (dest : Obj Crs) (st st' : State)
    (fs : list (QgsFeature Geometry)) :
  features_to_write ds dest st = (Ret fs, st') -> Forall (fits_schema (fields st)) fs.
Proof.
  unfold features_to_write. unfold bind at 1, logging, modify.
  set (st1 := set_proc _ st). unfold bind at 1.
  destruct (_build_crs (Dataset.source_crs ds) st1) as [[src|e] st2] eqn:E2; [| done].
  unfold bind at 1.
  destruct (_build_transform src dest st2) as [[tr|e] st3] eqn:E3; [| done].
  intros E. pose proof (build_features_fit _ _ _ _ _ E) as H.
  assert (H2 : preserves (unchanged fields) (_build_crs (Dataset.source_crs ds)))
    by (preserves_tac; reflexivity).
  assert (H3 : preserves (unchanged fields) (_build_transform src dest))
    by (unfold _build_transform; preserves_tac; reflexivity).
  by rewrite (H3 _ _ _ E3), (H2 _ _ _ E2) in H.
Qed.

Lemma features_to_write_steady (ds : Dataset.t) (dest : Obj Crs) :
  preserves steady (features_to_write ds dest).
Proof. unfold features_to_write. preserves_tac; steady_leaf. Qed.

(** The [try] body of one iteration: constructions, then one session. *)
Lemma export_dataset_trace (ds : Dataset.t) (dest : Obj Crs) (st st' : State)
    (r : outcome unit) :
  current_dataset st = Some ds ->
  export_dataset ds dest st = (r, st') ->
  payload st' = payload st /\ fields st' = fields st /\
  exists quiet session,
    trace (proc st') = trace (proc st) ++ quiet ++ session /\
    Forall no_writer_call quiet /\
    session_of (payload st) (fields st) ds dest session.
Proof.
  intros Hcur. rewrite export_dataset_split. unfold bind at 1.
  destruct (features_to_write ds dest st) as [[feats|e] st1] eqn:E1.
  - destruct (features_to_write_steady ds dest _ _ _ E1) as (Hp & Hf & _ & _).
    destruct (features_to_write_store_untouched ds dest _ _ _ E1)
      as (_ & quiet & Ht & Hq).
    pose proof (features_to_write_keeps_dataset ds dest _ _ _ E1) as Hc.
    unfold unchanged in Hc. rewrite Hcur in Hc.
    pose proof (features_to_write_fit ds dest _ _ _ E1) as Hfit.
    pose proof (prepare_save_options_eq st1 ds Hc) as Hprep. cbv zeta in Hprep.
    destruct (write_features_eq st1 feats dest _ _ _ Hprep)
      as (st2 & E2 & Ht2 & _ & _).
    unfold bind at 1. rewrite E2. run_monad. intros [= <- <-]. simpl.
    split; [| split].
    + assert (H : preserves (unchanged payload) (_write_features feats dest))
        by (preserves_tac; reflexivity).
      by rewrite (H _ _ _ E2).
    + assert (H : preserves (unchanged fields) (_write_features feats dest))
        by (preserves_tac; reflexivity).
      by rewrite (H _ _ _ E2).
    + eexists quiet, _. split; [| split; [exact Hq |]].
      * rewrite Ht2, Ht, <- !app_assoc. reflexivity.
      * right. rewrite Hp, Hf. eexists _, _. cbv zeta.
        split; [reflexivity |]. split; [reflexivity |]. split; [reflexivity |].
        split; [reflexivity |].
        match goal with
        | |- (if ?failed then _ else _) = [] \/ _ => destruct failed; [by left |]
        end.
        destruct feats as [|f feats]; [by left |]. right.
        exists (f :: feats). split; [done |]. split; [reflexivity |].
        exact Hfit.
  - intros [= <- <-].
    destruct (features_to_write_steady ds dest _ _ _ E1) as (Hp & Hf & _ & _).
    destruct (features_to_write_store_untouched ds dest _ _ _ E1)
      as (_ & quiet & Ht & Hq).
    split; [done |]. split; [done |]. exists quiet, [].
    rewrite app_nil_r. split; [done |]. split; [done |]. by left.
Qed.

Lemma export_iteration_trace (ds : Dataset.t) (dest : Obj Crs) (st st' : State)
    (r : outcome unit) :
  export_iteration ds dest st = (r, st') ->
  payload st' = payload st /\ fields st' = fields st /\
  exists quiet session,
    trace (proc st') = trace (proc st) ++ quiet ++ session /\
    Forall no_writer_call quiet /\
    session_of (payload st) (fields st) ds dest session.
Proof.
  unfold export_iteration, try_finally, try_except. unfold bind at 1, modify.
  destruct (export_dataset ds dest (set_current_dataset (Some ds) st))
    as [[[]|e] st1] eqn:E;
    destruct (export_dataset_trace ds dest (set_current_dataset (Some ds) st)
                _ _ eq_refl E)
      as (Hp & Hf & quiet & session & Ht & Hq & Hs).
  - intros [= <- <-]. split; [done |]. split; [done |]. by exists quiet, session.
  - run_monad. intros [= <- <-]. split; [done |]. split; [done |].
    by exists quiet, session.
Qed.

Lemma export_loop_trace (dss : list Dataset.t) (dest : Obj Crs) (st st' : State)
    (r : outcome unit) :
  for_each dss (fun ds => export_iteration ds dest) st = (r, st') ->
  exists new,
    trace (proc st') = trace (proc st) ++ new /\
    run_trace (payload st) (fields st) dest dss new.
Proof.
  revert st. induction dss as [|ds dss IH]; intros st; simpl.
  - intros [= <- <-]. exists []. by rewrite app_nil_r.
  - unfold bind at 1.
    destruct (export_iteration ds dest st) as [[[]|e] st1] eqn:E1;
      destruct (export_iteration_trace ds dest _ _ _ E1)
        as (Hp & Hf & quiet & session & Ht & Hq & Hs).
    + intros E. destruct (IH _ E) as (more & Ht' & Hr).
      rewrite Hp, Hf in Hr. exists (quiet ++ session ++ more). split.
      * by rewrite Ht', Ht, <- !app_assoc.
      * by exists quiet, session, more.
    + intros [= <- <-].
      assert (Hex : forall x, export_iteration ds dest st <> (Raise e, x)).
      { intros x. unfold export_iteration, try_finally, try_except.
        unfold bind at 1, modify.
        destruct (export_dataset ds dest _) as [[[]|e0] s0]; by run_monad. }
      by destruct (Hex st1).
Qed.

Lemma run_export_trace (st st' : State) (r : outcome unit) :
  run_export st = (r, st') ->
  exists dest quiet new,
    trace (proc st') = trace (proc st) ++ quiet ++ new /\
    Forall no_writer_call quiet /\
    run_trace (payload st) (fields st) dest
              (ExportPayload.datasets (payload st)) new /\
    forall d st0, run_export_prologue st = (Ret d, st0) -> d = dest.
Proof.
  rewrite run_export_unfold.
  assert (Hs : preserves steady run_export_prologue)
    by (unfold run_export_prologue; preserves_tac; steady_leaf).
  assert (Hq : preserves store_untouched run_export_prologue)
    by (unfold run_export_prologue; preserves_tac; store_leaf).
  destruct (run_export_prologue st) as [[dest|e] st0] eqn:E0.
  - destruct (Hs _ _ _ E0) as (Hp & Hf & _ & _).
    destruct (Hq _ _ _ E0) as (_ & quiet & Ht & Hquiet).
    intros E. destruct (export_loop_trace _ _ _ _ _ E) as (new & Ht' & Hr).
    rewrite Hp, Hf in Hr. exists dest, quiet, new.
    split; [by rewrite Ht', Ht, <- app_assoc |]. split; [done |]. split; [done |].
    by intros d s0 [= <- _].
  - intros [= <- <-]. destruct (Hq _ _ _ E0) as (_ & quiet & Ht & Hquiet).
    exists (mkObj 0%nat (QgsCoordinateReferenceSystem "")), quiet, [].
    rewrite app_nil_r. split; [done |]. split; [done |]. split; [| done].
    induction (ExportPayload.datasets (payload st)) as [|ds dss IH]; simpl; [done |].
    exists [], [], []. split; [done |]. split; [constructor |]. split; [by left | done].
Qed.

Lemma run_trace_Forall (P : Event -> Prop) (pl : ExportPayload.t)
    (flds : list QgsField) (dest : Obj Crs) (dss : list Dataset.t) (new : list Event) :
  (forall e, no_writer_call e -> P e) ->
  (forall ds session,
     ds ∈ dss -> session_of pl flds ds dest session -> Forall P session) ->
  run_trace pl flds dest dss new -> Forall P new.
Proof.
  intros Hquiet. revert new. induction dss as [|ds dss IH]; intros new Hsession; simpl.
  - intros ->. constructor.
  - intros (quiet & session & more & -> & Hq & Hs & Hr).
    apply Forall_app. split; [by eapply Forall_impl |].
    apply Forall_app. split.
    + apply (Hsession ds); [left | done].
    + apply IH; [| done]. intros ds' s' Hin. apply Hsession. by right.
Qed.

Lemma writer_protocol_app (s : WriterState) (tr1 tr2 : list Event) :
  writer_protocol s (tr1 ++ tr2)
  = writer_protocol s tr1 ≫= fun s' => writer_protocol s' tr2.
Proof.
  revert s. induction tr1 as [|e tr1 IH]; intros s; simpl; [done |].
  destruct e, s; simpl; try done; try apply IH;
    by destruct (_ =? _).
Qed.

Lemma writers_created_app (tr1 tr2 : list Event) :
  writers_created (tr1 ++ tr2) = (writers_created tr1 + writers_created tr2)%nat.
Proof. induction tr1 as [|e tr1 IH]; simpl; [done |]. rewrite IH. lia. Qed.

Lemma quiet_protocol (s : WriterState) (quiet : list Event) :
  Forall no_writer_call quiet ->
  writer_protocol s quiet = Some s /\ writers_created quiet = 0%nat.
Proof.
  induction 1 as [|e quiet He _ IH]; simpl; [done |].
  destruct e; simpl in He; try done; by destruct s.
Qed.

Lemma session_protocol (pl : ExportPayload.t) (flds : list QgsField)
    (ds : Dataset.t) (dest : Obj Crs) (session : list Event) :
  session_of pl flds ds dest session ->
  writer_protocol Closed session = Some Closed /\ (writers_created session <= 1)%nat.
Proof.
  intros [-> | (opts & adds & -> & _ & _ & _ & Hadds)]; [simpl; split; [done | lia] |].
  cbv zeta. destruct Hadds as [-> | (feats & _ & -> & _)]; simpl;
    rewrite ?String.eqb_refl; simpl; split; (done || lia).
Qed.

Lemma run_trace_protocol (pl : ExportPayload.t) (flds : list QgsField)
    (dest : Obj Crs) (dss : list Dataset.t) (new : list Event) :
  run_trace pl flds dest dss new ->
  writer_protocol Closed new = Some Closed /\
  (writers_created new <= length dss)%nat.
Proof.
  revert new. induction dss as [|ds dss IH]; intros new; simpl.
  - intros ->. simpl. split; [done | lia].
  - intros (quiet & session & more & -> & Hq & Hs & Hr).
    destruct (quiet_protocol Closed quiet Hq) as [Hq1 Hq2].
    destruct (session_protocol _ _ _ _ _ Hs) as [Hs1 Hs2].
    destruct (IH _ Hr) as [Hr1 Hr2].
    rewrite writer_protocol_app, Hq1. simpl.
    rewrite writer_protocol_app, Hs1. simpl.
    rewrite !writers_created_app. split; [done | lia].
Qed.

(** X12. [run_export] has one writer open at a time, and one per dataset at
    most: in what a run adds to the trace, a writer is created only when
    none is open, features are added at most once to a writer, to the one
    that is open, and every writer created is released before the next
    dataset; no more writers are created than the payload has datasets. *)
Theorem one_writer_at_a_time (st st' : State) (r : outcome unit) :
  run_export st = (r, st') ->
  exists new,
    trace (proc st') = trace (proc st) ++ new /\
    writer_protocol Closed new = Some Closed /\
    (writers_created new <= length (ExportPayload.datasets (payload st)))%nat.
Proof.
  intros E. destruct (run_export_trace _ _ _ E) as (dest & quiet & new & Ht & Hq & Hr & _).
  destruct (quiet_protocol Closed quiet Hq) as [Hq1 Hq2].
  destruct (run_trace_protocol _ _ _ _ _ Hr) as [Hr1 Hr2].
  exists (quiet ++ new). split; [done |].
  rewrite writer_protocol_app, Hq1, writers_created_app. simpl. split; [done | lia].
Qed.

(** X13. What a run hands to the writers fits the schema.  The fields of the
    processor are the fields of [FIELD_DEFINITIONS], in their order; a
    processor with these fields creates every writer with them, never adds
    an empty list of features, and adds only features that carry these
    fields and as many attributes as fields. *)
Theorem written_features_fit_the_schema (st st' : State) (r : outcome unit) :
  fields st = _build_fields ->
  run_export st = (r, st') ->
  fields st = FieldDef.to_qgs_field <$> FIELD_DEFINITIONS /\
  exists new,
    trace (proc st') = trace (proc st) ++ new /\ Forall schema_event new.
Proof.
  intros Hf E. rewrite build_fields_eq in Hf. split; [done |].
  destruct (run_export_trace _ _ _ E) as (dest & quiet & new & Ht & Hq & Hr & _).
  exists (quiet ++ new). split; [done |]. apply Forall_app. split.
  - eapply Forall_impl; [exact Hq |]. by intros [].
  - eapply run_trace_Forall; [| | exact Hr].
    + by intros [].
    + intros ds session _ [-> | (opts & adds & -> & _ & _ & _ & Hadds)]; [constructor |].
      cbv zeta. constructor; [exact Hf |]. apply Forall_app. split; [| by repeat constructor].
      destruct Hadds as [-> | (feats & Hne & -> & Hfit)]; [constructor |].
      repeat constructor; [done |].
      eapply Forall_impl; [exact Hfit |]. intros f [Hff Hfa]. rewrite Hff, Hf.
      split; [done |]. by rewrite Hfa, length_fmap.
Qed.

(** X14. All writers of a run are created alike.  Every writer [run_export]
    creates gets the fields of the processor, the one CRS object that the
    lookup of the target CRS returned, the driver of the payload and the
    encoding UTF-8, and is created for the layer of one of the datasets of
    the payload, at the output path for it: the output path itself for a
    container driver, so that all layers of the run go to one file. *)
Theorem writers_of_a_run_are_alike (st st' : State) (r : outcome unit) :
  run_export st = (r, st') ->
  exists dest new,
    (forall d st0, run_export_prologue st = (Ret d, st0) -> d = dest) /\
    trace (proc st') = trace (proc st) ++ new /\
    Forall (writer_of_run (payload st) (fields st) dest) new.
Proof.
  intros E. destruct (run_export_trace _ _ _ E) as (dest & quiet & new & Ht & Hq & Hr & Hd).
  exists dest, (quiet ++ new). split; [done |]. split; [done |].
  apply Forall_app. split.
  - eapply Forall_impl; [exact Hq |]. by intros [].
  - eapply run_trace_Forall; [| | exact Hr].
    + by intros [].
    + intros ds session Hin [-> | (opts & adds & -> & Hdrv & Hlayer & Henc & Hadds)];
        [constructor |].
      cbv zeta. constructor.
      * simpl. repeat split; try done. by exists ds.
      * apply Forall_app. split; [| by repeat constructor].
        destruct Hadds as [-> | (feats & _ & -> & _)]; by repeat constructor.
Qed.

(** ** The feature count of a dataset *)

Section Totals.

Lemma totals_ret {A} (a : A) : same_without_totals (ret a) (ret a).
Proof. by intros st. Qed.

Lemma totals_raise {A} (e : PyExn) : same_without_totals (@raise _ A e) (raise e).
Proof. by intros st. Qed.

Lemma totals_lift {A} (o : outcome A) : same_without_totals (lift o) (lift o).
Proof. by intros st. Qed.

Lemma totals_gets {A} (f : State -> A) :
  (forall st, f (without_totals st) = f st) -> same_without_totals (gets f) (gets f).
Proof. intros H st. unfold gets. simpl. by rewrite H. Qed.

Lemma totals_modify (f f' : State -> State) :
  (forall st, f' (without_totals st) = without_totals (f st)) ->
  same_without_totals (modify f) (modify f').
Proof. intros H st. unfold modify. simpl. by rewrite H. Qed.

Lemma totals_bind {A B} (c c' : M A) (k k' : A -> M B) :
  same_without_totals c c' -> (forall a, same_without_totals (k a) (k' a)) ->
  same_without_totals (bind c k) (bind c' k').
Proof.
  intros Hc Hk st. unfold bind. rewrite Hc.
  destruct (c st) as [[a|e] st1]; simpl; [apply Hk | done].
Qed.

(** Reading the current dataset gives the dataset without its total. *)
Lemma totals_bind_dataset {B} (attr : string) (k k' : Dataset.t -> M B) :
  (forall ds, same_without_totals (k ds) (k' (no_total ds))) ->
  same_without_totals (bind (get_current_dataset attr) k)
                      (bind (get_current_dataset attr) k').
Proof.
  intros Hk st. unfold get_current_dataset. unfold bind, gets, ret, raise. simpl.
  destruct (current_dataset st) as [ds|]; simpl; [apply Hk | done].
Qed.

Lemma totals_try_except {A} (body body' : M A) (handler handler' : PyExn -> M A) :
  same_without_totals body body' ->
  (forall e, same_without_totals (handler e) (handler' e)) ->
  same_without_totals (try_except body handler) (try_except body' handler').
Proof.
  intros Hb Hh st. unfold try_except. rewrite Hb.
  destruct (body st) as [[a|e] st1]; simpl; [done | apply Hh].
Qed.

Lemma totals_try_finally {A} (body body' : M A) (final : State -> State) :
  same_without_totals body body' ->
  (forall st, final (without_totals st) = without_totals (final st)) ->
  same_without_totals (try_finally body final) (try_finally body' final).
Proof.
  intros Hb Hf st. unfold try_finally. rewrite Hb.
  destruct (body st) as [r st1]; simpl. by rewrite Hf.
Qed.

Lemma totals_for_each (dss : list Dataset.t) (body body' : Dataset.t -> M unit) :
  (forall ds, same_without_totals (body ds) (body' (no_total ds))) ->
  same_without_totals (for_each dss body) (for_each (no_total <$> dss) body').
Proof.
  intros Hb. induction dss as [|ds dss IH]; simpl.
  - apply totals_ret.
  - apply totals_bind; auto.
Qed.

Lemma totals_build_features (feats : list Feature.t) (tr : option (Obj Transform)) :
  (forall fd, same_without_totals (_create_feature fd tr) (_create_feature fd tr)) ->
  same_without_totals (build_features feats tr) (build_features feats tr).
Proof.
  intros H. induction feats as [|fd feats IH]; simpl.
  - apply totals_ret.
  - apply totals_bind; [apply H | intros ?].
    apply totals_bind; [apply IH | intros ?]. apply totals_ret.
Qed.

(** The two methods that read the current dataset by themselves: one reads
    its source path, the other its layer name. *)
Lemma extract_attributes_totals (props : dict json) :
  same_without_totals (_extract_attributes props) (_extract_attributes props).
Proof.
  intros st. unfold _extract_attributes, bind, gets, ret, raise. simpl.
  by destruct (current_dataset st).
Qed.

Lemma prepare_save_options_totals :
  same_without_totals _prepare_save_options _prepare_save_options.
Proof.
  intros st. unfold _prepare_save_options, get_current_dataset. run_monad.
  destruct (current_dataset st); simpl; [| done].
  by destruct (is_container_driver _).
Qed.

Ltac totals_with known :=
  repeat first
    [ known
    | apply totals_ret
    | apply totals_raise
    | apply totals_lift
    | apply extract_attributes_totals
    | apply prepare_save_options_totals
    | apply totals_gets; intros ?
    | apply totals_modify; intros ?
    | apply totals_bind_dataset; intros ?
    | apply totals_bind; [| intros ?]
    | apply totals_try_except; [| intros ?]
    | apply totals_try_finally; [| intros ?]
    | apply totals_build_features; intros ?
    | match goal with
      | |- same_without_totals (if ?b then _ else _) _ => destruct b
      | |- same_without_totals (match ?x with _ => _ end) _ => destruct x
      | |- same_without_totals (_build_crs _) _ => unfold _build_crs
      | |- same_without_totals (let _ := _ in _) _ => cbv zeta
      end ].

Lemma build_crs_totals (s : string) :
  same_without_totals (_build_crs s) (_build_crs s).
Proof. totals_with fail; reflexivity. Qed.

Lemma export_iteration_totals (ds : Dataset.t) (dest : Obj Crs) :
  same_without_totals (export_iteration ds dest) (export_iteration (no_total ds) dest).
Proof.
  unfold export_iteration, export_dataset, _write_features, _create_feature,
    create_feature_body, _build_transform, logging, print, writer_create,
    writer_addFeatures, writer_del, new_object, record_event.
  simpl. totals_with ltac:(apply build_crs_totals); reflexivity.
Qed.

Lemma run_export_loop_totals (pl : ExportPayload.t) :
  same_without_totals
    (logging INFO "开始处理 %d 个文件..."
             [AInt (Z.of_nat (length (ExportPayload.datasets pl)))] ;;
     dest_crs <- _build_crs (ExportPayload.target_crs pl) ;;
     for_each (ExportPayload.datasets pl)
              (fun dataset => export_iteration dataset dest_crs))
    (logging INFO "开始处理 %d 个文件..."
             [AInt (Z.of_nat (length (ExportPayload.datasets (no_totals pl))))] ;;
     dest_crs <- _build_crs (ExportPayload.target_crs (no_totals pl)) ;;
     for_each (ExportPayload.datasets (no_totals pl))
              (fun dataset => export_iteration dataset dest_crs)).
Proof.
  simpl. rewrite length_fmap. unfold logging.
  apply totals_bind; [by apply totals_modify |]. intros _.
  apply totals_bind; [apply build_crs_totals |]. intros dest.
  apply totals_for_each. intros ds. apply export_iteration_totals.
Qed.

Lemma run_export_totals : same_without_totals run_export run_export.
Proof. intros st. exact (run_export_loop_totals (payload st) st). Qed.

Lemma run_payload_totals (pl : ExportPayload.t) (p : Process) :
  run_payload (no_totals pl) p = run_payload pl p.
Proof.
  unfold run_payload, __init__.
  set (self := mkState pl _build_fields ∅ ∅ None None p).
  change (mkState (no_totals pl) _build_fields ∅ ∅ None None p)
    with (without_totals self).
  rewrite (build_crs_totals "EPSG:4526" self).
  destruct (_build_crs "EPSG:4526" self) as [[c|e] st1]; [| done]. simpl.
  set (st2 := set_proc _ _). set (st3 := set_proc _ _).
  change st2 with (without_totals st3).
  rewrite (run_export_totals st3). by destruct (run_export st3).
Qed.

End Totals.

(** X15. The feature count a dataset declares is never read: two payloads
    that differ in the [total_features] of their datasets only run the
    same, from the same process and world, down to the log, the printed
    records, the library calls and the world they leave. *)
Theorem total_features_is_never_read (pl pl' : ExportPayload.t) (p : Process) :
  no_totals pl = no_totals pl' ->
  run_payload pl p = run_payload pl' p.
Proof. intros H. by rewrite <- (run_payload_totals pl), H, run_payload_totals. Qed.

(** ** The geometry of a built feature *)

(** X16. The geometry of a feature [_create_feature] hands back is read off
    the WKT: the feature has no geometry exactly when the WKT is empty or
    parses to an empty geometry; otherwise its geometry is the parsed one,
    as it is when there is no transform, and transformed by the transform
    when there is one.  The processor is left as it was. *)
Theorem built_geometry_follows_the_wkt
    (fd : Feature.t) (tr : option (Obj Transform)) (st st' : State)
    (f : QgsFeature Geometry) :
  _create_feature fd tr st = (Ret (Some f), st') ->
  st' = st /\
  match geometry f with
  | None =>
      Feature.wkt fd = "" \/
      exists g, fromWkt (Feature.wkt fd) = Ret g /\ isEmpty g = true
  | Some g =>
      Feature.wkt fd <> "" /\
      exists parsed,
        fromWkt (Feature.wkt fd) = Ret parsed /\ isEmpty parsed = false /\
        match tr with
        | None => g = parsed
        | Some t => geometry_transform parsed (val t) = Ret g
        end
  end.
Proof.
  unfold _create_feature, try_except.
  destruct (create_feature_body fd tr st) as [[o|e] st1] eqn:E; [| by run_monad].
  intros [= -> <-].
  pose proof (create_feature_body_pure fd tr _ _ _ E) as Hst.
  unfold unchanged in Hst. split; [done |]. clear Hst.
  destruct (current_dataset st) as [ds|] eqn:Hcur.
  2:{ destruct (extract_attributes_unset st (Feature.properties fd) Hcur) as (e & Ea & _).
      unfold create_feature_body, bind, gets in E. cbv beta iota zeta in E.
      by rewrite Ea in E. }
  pose proof (extract_attributes_eq st ds (Feature.properties fd) Hcur) as Ea.
  unfold create_feature_body, bind, gets in E. cbv beta iota zeta in E.
  rewrite Ea in E. unfold ret, lift in E. simpl in E.
  destruct (Feature.wkt fd =? "") eqn:Hw.
  { injection E as <- <-. simpl. left. by apply String.eqb_eq. }
  apply String.eqb_neq in Hw.
  destruct (fromWkt (Feature.wkt fd)) as [g|e]; [| done]. simpl in E.
  destruct (isEmpty g) eqn:Hg; simpl in E.
  { injection E as <- <-. simpl. right. by exists g. }
  destruct tr as [t|]; simpl in E.
  - destruct (geometry_transform g (val t)) as [g'|e] eqn:Ht; [| done].
    injection E as <- <-. simpl. split; [done |]. by exists g.
  - injection E as <- <-. simpl. split; [done |]. by exists g.
Qed.

End Properties.

(** * The script at work on the small QGIS *)

Section Runs.
Import Small.

(** Scenario A of the specification: one record, one layer "parcels" in the
    container, and the attributes DKBH and AREA filled in. *)
Example scenario_a_runs :
  let r := main ["geoexport.py"; "/usr"] "scenario A" fresh in
  r.1 = ExitCode 0 /\
  stdout r.2 = [[("hash", "a1"); ("status", "processed")]] /\
  world r.2 = ["/out/a.gpkg"].
Proof. vm_compute. by repeat split. Qed.

Example scenario_a_attributes :
  (_extract_attributes (Feature.properties parcel) at_work).1
  = Ret [JNull; JFloat "120.5"; JStr "001"; JNull; JNull; JNull; JNull; JNull;
         JStr "/tmp/a.json"].
Proof. reflexivity. Qed.

(** A batch with a dataset that fails: the second dataset has no transform
    to the target CRS, the first loses one of its three features, the third
    has an empty source CRS and no feature. *)
Example three_datasets_run :
  let r := main ["geoexport.py"; "/usr"] "three datasets" fresh in
  r.1 = ExitCode 0 /\
  stdout r.2
  = [[("hash", "b1"); ("status", "processed")];
     [("hash", "b2"); ("status", "failed");
      ("error", "no coordinate operation from EPSG:0")];
     [("hash", "b3"); ("status", "processed")]] /\
  world r.2 = ["/out/third"; "/out/first"].
Proof. vm_compute. by repeat split. Qed.

(** Scenario B: an empty source CRS is resolved to the default CRS, with a
    warning. *)
Example scenario_b_runs :
  (_build_crs "" at_work).1 = Ret epsg4526 /\
  log (proc (_build_crs "" at_work).2) = [empty_crs_warning].
Proof. by split. Qed.

(** Scenario C: a feature with an empty WKT keeps its attributes and has no
    geometry. *)
Example scenario_c_runs :
  (_create_feature (Feature.mk [("pid", JStr "001")] "") None at_work).1
  = Ret (Some (mkQgsFeature _build_fields
                 [JNull; JNull; JStr "001"; JNull; JNull; JNull; JNull; JNull;
                  JStr "/tmp/a.json"]
                 None)).
Proof. reflexivity. Qed.

(** A second export into a container that exists overwrites the layer, not
    the file. *)
Example existing_container_keeps_its_file :
  let st := set_proc (set_world ["/out/a.gpkg"] (proc at_work)) at_work in
  (_prepare_save_options st).1
  = Ret (mkSaveVectorOptions "GPKG" "parcels" "UTF-8" CreateOrOverwriteLayer
           ["SPATIAL_INDEX=YES"],
         "/out/a.gpkg", "/out/a.gpkg|layername=parcels").
Proof. vm_compute. reflexivity. Qed.

(** Scenario D: a document that is not a dict. *)
Example scenario_d_runs :
  let r := main ["geoexport.py"; "/usr"] "a list" fresh in
  r.1 = ExitCode 1 /\ stdout r.2 = [].
Proof. vm_compute. by split. Qed.

(** A document without the key "datasets" is a batch of no dataset. *)
Example no_datasets_key_runs :
  let r := main ["geoexport.py"; "/usr"] "no datasets key" fresh in
  r.1 = ExitCode 0 /\ stdout r.2 = [].
Proof. vm_compute. by split. Qed.




Lemma create_feature_never_raises_witness :
  exists attrs,
    _create_feature point None at_work
    = (Ret (Some (mkQgsFeature (fields at_work) attrs None)), at_work).
Proof.
  destruct (create_feature_never_raises at_work point None) as (_ & H & _).
  destruct (H parcels eq_refl (or_intror (ex_intro _ "" (conj eq_refl eq_refl))))
    as (attrs & _ & E).
  exists attrs. exact E.
Defined.

Lemma build_crs_total_and_reused_witness :
  default_crs at_work = Some epsg4526 /\
  exists st',
    _build_crs "" at_work = (Ret epsg4526, st') /\
    log (proc st') = log (proc at_work) ++ [empty_crs_warning] /\
    crs_cache st' = crs_cache at_work.
Proof.
  split; [reflexivity |].
  exact (proj1 (proj2 (proj2 build_crs_total_and_reused at_work epsg4526 eq_refl))).
Defined.


Lemma extract_attributes_schema_order_witness :
  current_dataset at_work = Some parcels /\
  exists attrs,
    _extract_attributes (Feature.properties parcel) at_work = (Ret attrs, at_work) /\
    length attrs = 9%nat.
Proof.
  split; [reflexivity |].
  destruct (extract_attributes_schema_order at_work parcels
              (Feature.properties parcel) eq_refl) as (attrs & E & Hlen & _).
  exists attrs. split; [exact E | exact Hlen].
Defined.






Lemma every_layer_is_polygon_witness :
  exists b st' opts target rest,
    _write_features [mkQgsFeature [] [] (Some "POINT(1 1)")] epsg4526 at_work
    = (Ret b, st') /\
    trace (proc st')
    = trace (proc at_work)
      ++ WriterCreate target (fields at_work) QgsWkbTypes.Polygon epsg4526 opts
         :: rest /\
    Forall (fun e => match e with WriterCreate _ _ _ _ _ => False | _ => True end)
           rest.
Proof.
  exact (proj1 (every_layer_is_polygon at_work) parcels
               [mkQgsFeature [] [] (Some "POINT(1 1)")] epsg4526 eq_refl).
Defined.

Lemma merge_flag_is_never_read_witness :
  run_payload (ExportPayload.with_merge true three_datasets) fresh
  = run_payload three_datasets fresh.
Proof. exact (merge_flag_is_never_read three_datasets true fresh). Defined.

(** *** The further properties, on the small QGIS *)


Lemma extract_attributes_reads_mapped_keys_witness :
  _extract_attributes
    (("owner", JStr "nobody") :: ("source_path", JStr "elsewhere")
       :: Feature.properties parcel) at_work
  = _extract_attributes (Feature.properties parcel) at_work.
Proof.
  apply extract_attributes_reads_mapped_keys.
  vm_compute. repeat constructor.
Defined.

Lemma caches_only_grow_witness :
  crs_cache (run_export (processor three_datasets None)).2 !! "EPSG:4526"
  = Some epsg4526.
Proof.
  apply (proj1 (caches_only_grow (processor three_datasets None) _
                  (run_export (processor three_datasets None)).1
                  (surjective_pairing _))).
  vm_compute. reflexivity.
Defined.


Lemma one_writer_at_a_time_witness :
  exists new,
    trace (proc (run_export (processor three_datasets None)).2)
    = trace (proc (processor three_datasets None)) ++ new /\
    writer_protocol Closed new = Some Closed /\
    (writers_created new <= 3)%nat.
Proof.
  exact (one_writer_at_a_time (processor three_datasets None) _ _
           (surjective_pairing _)).
Defined.

Lemma written_features_fit_the_schema_witness :
  exists new,
    trace (proc (run_export (processor three_datasets None)).2)
    = trace (proc (processor three_datasets None)) ++ new /\
    Forall schema_event new.
Proof.
  exact (proj2 (written_features_fit_the_schema (processor three_datasets None) _ _
                  eq_refl (surjective_pairing _))).
Defined.

Lemma writers_of_a_run_are_alike_witness :
  exists dest new,
    (forall d st0,
       run_export_prologue (processor scenario_a None) = (Ret d, st0) -> d = dest) /\
    trace (proc (run_export (processor scenario_a None)).2)
    = trace (proc (processor scenario_a None)) ++ new /\
    Forall (writer_of_run scenario_a _build_fields dest) new.
Proof.
  exact (writers_of_a_run_are_alike (processor scenario_a None) _ _
           (surjective_pairing _)).
Defined.

Lemma total_features_is_never_read_witness :
  run_payload scenario_a fresh
  = run_payload
      (ExportPayload.mk
         [Dataset.mk [parcel] "a1" "parcels" "EPSG:4490" "/tmp/a.json" 99]
         "GPKG" false "/out/a.gpkg" true "EPSG:4490")
      fresh.
Proof. apply total_features_is_never_read. reflexivity. Defined.

Lemma built_geometry_follows_the_wkt_witness :
  (_create_feature parcel (Some (mkObj 2%nat ("EPSG:4526", "EPSG:4490"))) at_work).2
  = at_work.
Proof.
  eapply proj1.
  eapply (built_geometry_follows_the_wkt (Q := qgis) parcel
            (Some (mkObj 2%nat ("EPSG:4526", "EPSG:4490"))) at_work).
  vm_compute. reflexivity.
Defined.

End Runs.
